(** * conference_speech: the speech page's transcript, retry and summary logic

    A shallow embedding of the two revisions of the page component,
    [src/unnamed/part_002] (module [Page], the revision with keywords and
    reconnection) and [src/app/page.tsx] (module [PageV1]), with the
    JavaScript string operations they use (module [JS]). *)

From Stdlib Require Import List NArith ZArith String Ascii Bool Lia.
From Stdlib Require Import Permutation Sorted QArith Qround Qpower Qminmax Lqa.
From Corelib Require Import PrimFloat FloatOps SpecFloat Uint63Axioms.
Import ListNotations.

Local Open Scope N_scope.

(** * JavaScript strings

    A JavaScript string is a sequence of UTF-16 code units; [length],
    [indexOf], [substring] and regular expressions without the [u] flag all
    work on code units. *)
Module JS.

Definition jsstring := list N.

(** ** Literals

    String literals of the source are written as they stand there and decoded
    from the file's UTF-8 bytes to code units. *)

Definition emit (cp : N) : jsstring :=
  if cp <? 65536 then [cp]
  else [55296 + (cp - 65536) / 1024; 56320 + (cp - 65536) mod 1024].

Fixpoint decode (pend : nat) (acc : N) (bs : list N) : jsstring :=
  match bs with
  | [] => []
  | b :: bs' =>
      match pend with
      | S p =>
          let acc' := acc * 64 + b mod 64 in
          match p with
          | O => emit acc' ++ decode 0 0 bs'
          | S _ => decode p acc' bs'
          end
      | O =>
          if b <? 128 then b :: decode 0 0 bs'
          else if b <? 224 then decode 1 (b mod 32) bs'
          else if b <? 240 then decode 2 (b mod 16) bs'
          else decode 3 (b mod 8) bs'
      end
  end.

Definition utf16 (s : string) : jsstring :=
  decode 0 0 (map N_of_ascii (list_ascii_of_string s)).

Fixpoint str_eqb (a b : jsstring) : bool :=
  match a, b with
  | [], [] => true
  | x :: a', y :: b' => (x =? y) && str_eqb a' b'
  | _, _ => false
  end.

(** [s.length] *)
Definition strlen (s : jsstring) : N := N.of_nat (List.length s).

(** ** Character classes *)

(** [\s]: WhiteSpace and LineTerminator code points. [trim] strips the same
    set. *)
Definition is_space (c : N) : bool :=
  ((9 <=? c) && (c <=? 13)) || (c =? 32) || (c =? 160) || (c =? 5760)
  || ((8192 <=? c) && (c <=? 8202)) || (c =? 8232) || (c =? 8233)
  || (c =? 8239) || (c =? 8287) || (c =? 12288) || (c =? 65279).

(** [\w] without the [u] and [i] flags: [A-Za-z0-9_]. *)
Definition is_word (c : N) : bool :=
  ((48 <=? c) && (c <=? 57)) || ((65 <=? c) && (c <=? 90))
  || (c =? 95) || ((97 <=? c) && (c <=? 122)).

(** The range [가-힣] (U+AC00 to U+D7A3). *)
Definition is_hangul (c : N) : bool := (44032 <=? c) && (c <=? 55203).

(** ** Searching *)

Fixpoint starts_with (p s : jsstring) : bool :=
  match p, s with
  | [], _ => true
  | x :: p', y :: s' => (x =? y) && starts_with p' s'
  | _ :: _, [] => false
  end.

(** [s.indexOf(p)]: the least index at which [p] occurs, [None] for -1. *)
Fixpoint indexOf (p s : jsstring) : option nat :=
  if starts_with p s then Some O
  else match s with
       | [] => None
       | _ :: s' => option_map S (indexOf p s')
       end.

(** [s.lastIndexOf(p)]: the greatest index at which [p] occurs. *)
Fixpoint lastIndexOf (p s : jsstring) : option nat :=
  match s with
  | [] => if starts_with p [] then Some O else None
  | _ :: s' =>
      match lastIndexOf p s' with
      | Some i => Some (S i)
      | None => if starts_with p s then Some O else None
      end
  end.

(** [s.includes(p)] *)
Definition includes (p s : jsstring) : bool :=
  match indexOf p s with Some _ => true | None => false end.

(** [s.substring(0, i)] for [0 <= i <= s.length]. *)
Definition substring0 (i : nat) (s : jsstring) : jsstring := firstn i s.

(** The number of (possibly overlapping) occurrences of [p] in [s]. *)
Fixpoint occurrences (p s : jsstring) : nat :=
  (if starts_with p s then 1 else 0)%nat +
  match s with
  | [] => O
  | _ :: s' => occurrences p s'
  end.

(** ** Trimming and splitting *)

Fixpoint trimStart (s : jsstring) : jsstring :=
  match s with
  | c :: s' => if is_space c then trimStart s' else s
  | [] => []
  end.

(** [s.trim()] *)
Definition trim (s : jsstring) : jsstring :=
  rev (trimStart (rev (trimStart s))).

(** [s.split(/[C]+/)] for a character class [C] given as [sep]: the pieces
    between maximal runs of separators, with an empty first (last) piece when
    the string starts (ends) with a separator, and [[""]] for the empty
    string. [cur] holds the current piece reversed, [insep] tells whether the
    previous code unit was a separator. *)
Fixpoint split_go (sep : N -> bool) (insep : bool) (cur s : jsstring)
  : list jsstring :=
  match s with
  | [] => [rev cur]
  | c :: s' =>
      if sep c then
        if insep then split_go sep true cur s'
        else rev cur :: split_go sep true [] s'
      else split_go sep false (c :: cur) s'
  end.

Definition split_runs (sep : N -> bool) (s : jsstring) : list jsstring :=
  split_go sep false [] s.

(** [s.replace(/\s+/g, " ")] *)
Fixpoint collapse_go (insep : bool) (s : jsstring) : jsstring :=
  match s with
  | [] => []
  | c :: s' =>
      if is_space c then
        if insep then collapse_go true s' else 32 :: collapse_go true s'
      else c :: collapse_go false s'
  end.

Definition collapse_spaces (s : jsstring) : jsstring := collapse_go false s.

(** [a.join(sep)] *)
Fixpoint join (sep : jsstring) (l : list jsstring) : jsstring :=
  match l with
  | [] => []
  | [x] => x
  | x :: l' => x ++ sep ++ join sep l'
  end.

(** Decimal rendering of a non-negative integer, as a template literal
    prints it. *)
Fixpoint digits (d : Decimal.uint) : jsstring :=
  match d with
  | Decimal.Nil => []
  | Decimal.D0 d => 48 :: digits d
  | Decimal.D1 d => 49 :: digits d
  | Decimal.D2 d => 50 :: digits d
  | Decimal.D3 d => 51 :: digits d
  | Decimal.D4 d => 52 :: digits d
  | Decimal.D5 d => 53 :: digits d
  | Decimal.D6 d => 54 :: digits d
  | Decimal.D7 d => 55 :: digits d
  | Decimal.D8 d => 56 :: digits d
  | Decimal.D9 d => 57 :: digits d
  end.

Definition of_number (n : N) : jsstring := digits (N.to_uint n).

End JS.

Import JS.

(** * The transcript

    [recognition.onresult] is the same in both revisions apart from the two
    counters the later one resets. *)
Module Transcript.

(** One [SpeechRecognitionResult]: its [isFinal] flag and the transcript of
    its first alternative, [result[0].transcript]. *)
Record result := { isFinal : bool; text : jsstring }.

Definition event := list result.

Definition provisional : jsstring := Eval vm_compute in utf16 "[임시]".
Definition final_tag : jsstring := Eval vm_compute in utf16 "[최종]".

(** The loop over [event.results]: finalized texts are concatenated, each
    followed by a space, into [finalTranscript]; the others into
    [interimTranscript]. *)
Fixpoint collect (ev : event) (fin interim : jsstring) : jsstring * jsstring :=
  match ev with
  | [] => (fin, interim)
  | r :: ev' =>
      if isFinal r then collect ev' (fin ++ text r ++ [32]) interim
      else collect ev' fin (interim ++ text r)
  end.

Definition is_empty (s : jsstring) : bool :=
  match s with [] => true | _ => false end.

(** The functional update passed to [setTranscription], applied to [prev]. *)
Definition onresult_transcript (ev : event) (prev : jsstring) : jsstring :=
  let '(finalTranscript, interimTranscript) := collect ev [] [] in
  if negb (is_empty interimTranscript) then
    let basePrev :=
      match lastIndexOf final_tag prev with
      | Some lastFinalIndex => substring0 lastFinalIndex prev
      | None => prev
      end in
    basePrev ++ finalTranscript ++ provisional ++ [32] ++ interimTranscript
  else if negb (is_empty finalTranscript) then
    let basePrev :=
      match indexOf provisional prev with
      | Some tempIndex => substring0 tempIndex prev
      | None => prev
      end in
    basePrev ++ finalTranscript
  else prev.

End Transcript.


(** * Keyword extraction ([extractKeywords], part_002 lines 438-519) *)
Module Keywords.

Import Transcript.

(** The stop-word [Set]; [has] is [Set.prototype.has]. *)
Definition stopWords : list jsstring := Eval vm_compute in
  map utf16
    ["그"; "이"; "저"; "것"; "들"; "의"; "가"; "을"; "를"; "에"; "와"; "과";
     "도"; "는"; "은"; "이다"; "있다"; "없다"; "하다"; "되다"; "이것"; "저것";
     "그것"; "여기"; "저기"; "거기"; "이곳"; "저곳"; "그곳"; "때문"; "따라";
     "그래서"; "그러나"; "하지만"; "그리고"; "또한"; "또는"; "만약"; "만일";
     "아니"; "않"; "못"; "안"; "임시"; "최종"; "결과"; "내용"; "발표"; "음성";
     "인식"; "요약"; "텍스트"]%string.

Definition has (set : list jsstring) (w : jsstring) : bool :=
  existsb (str_eqb w) set.

(** [s.replace(/\[임시\].*?(?=\s|$)/g, "")]. Matches are found left to
    right and do not overlap. A match is the literal [[임시]] followed by the
    shortest run of code units after which a white-space code unit or the end
    of the string stands; [.] stops at line terminators only, and those are
    white space, so the run is the maximal run of code units that are not
    white space. [tag] counts the code units of the literal still to be
    consumed, [dropping] tells that the scan is inside the run. *)
Fixpoint strip_go (tag : nat) (dropping : bool) (s : jsstring) : jsstring :=
  match s with
  | [] => []
  | c :: s' =>
      match tag with
      | S k => strip_go k true s'
      | O =>
          if dropping && negb (is_space c) then strip_go 0 true s'
          else if starts_with provisional s then strip_go 3 true s'
          else c :: strip_go 0 false s'
      end
  end.

Definition strip_provisional (s : jsstring) : jsstring := strip_go 0 false s.

(** [s.replace(/[^\w\s가-힣]/g, " ")] *)
Definition keeps (c : N) : bool := is_word c || is_space c || is_hangul c.

Definition blank_others (s : jsstring) : jsstring :=
  map (fun c => if keeps c then c else 32) s.

Definition cleanText (text : jsstring) : jsstring :=
  trim (collapse_spaces (blank_others (strip_provisional text))).

(** [cleanText.split(/\s+/)] *)
Definition words (text : jsstring) : list jsstring :=
  split_runs is_space (cleanText text).

(** ** The frequency object

    [wordFreq] is the object literal [{}], so a read of [wordFreq[word]]
    that finds no own property continues in [Object.prototype]. There every
    standard property holds a function, and [__proto__] is an accessor
    whose getter returns [Object.prototype]: all truthy, so [|| 0] keeps
    them, and [+ 1] turns them into a string. A value is therefore either a
    count or a string that is not a numeral. *)
Inductive jsvalue := Count (n : N) | NotNumeric.

(** The own properties, in creation order. *)
Definition object := list (jsstring * jsvalue).

Definition inherited : list jsstring := Eval vm_compute in
  map utf16
    ["constructor"; "hasOwnProperty"; "isPrototypeOf";
     "propertyIsEnumerable"; "toLocaleString"; "toString"; "valueOf";
     "__defineGetter__"; "__defineSetter__"; "__lookupGetter__";
     "__lookupSetter__"]%string.

Definition proto_accessor : jsstring := Eval vm_compute in utf16 "__proto__".

Fixpoint own (o : object) (k : jsstring) : option jsvalue :=
  match o with
  | [] => None
  | (k', v) :: o' => if str_eqb k k' then Some v else own o' k
  end.

(** [(v || 0) + 1] for an own value [v]: a count is incremented ([0] is the
    only falsy count and gives [1] as well), a string gets ["1"] appended. *)
Definition bump (v : jsvalue) : jsvalue :=
  match v with
  | Count n => Count (n + 1)
  | NotNumeric => NotNumeric
  end.

(** Assignment to an existing own property keeps its position. *)
Fixpoint update (o : object) (k : jsstring) (v : jsvalue) : object :=
  match o with
  | [] => []
  | (k', v') :: o' =>
      if str_eqb k k' then (k', v) :: o' else (k', v') :: update o' k v
  end.

(** [wordFreq[word] = (wordFreq[word] || 0) + 1]. The [__proto__] setter
    ignores a value that is neither an object nor [null], so that
    assignment creates nothing. *)
Definition tally (o : object) (word : jsstring) : object :=
  match own o word with
  | Some v => update o word (bump v)
  | None =>
      if str_eqb word proto_accessor then o
      else if has inherited word then o ++ [(word, NotNumeric)]
      else o ++ [(word, Count 1)]
  end.

(** The [forEach] over [words]. *)
Definition wordFreq (ws : list jsstring) : object :=
  fold_left
    (fun o word =>
       if (2 <=? strlen word) && negb (has stopWords word) then tally o word
       else o)
    ws [].

(** ** [Array.prototype.sort]

    The sort is stable. [after a b] says that [comparefn(a, b) > 0], so that
    [b] must come before [a]; for a consistent comparator the result is the
    one of a stable insertion, which [Array_sort] computes. (For a comparator
    that is not consistent the language leaves the order to the engine;
    [Array_sort] then gives one of the possible orders, and [may_return]
    below all of them.) *)
Section Sort.
Context {A : Type} (after : A -> A -> bool).

Fixpoint insert (x : A) (l : list A) : list A :=
  match l with
  | [] => [x]
  | y :: l' => if after x y then y :: insert x l' else x :: l
  end.

Definition Array_sort (l : list A) : list A := fold_right insert [] l.

End Sort.

(** ** [Object.entries]

    Own keys that are array indices (canonical numerals up to [2^32 - 2])
    come first, in ascending numeric order; the other keys follow in creation
    order. *)
Definition is_digit (c : N) : bool := (48 <=? c) && (c <=? 57).

Fixpoint numeral (acc : N) (s : jsstring) : option N :=
  match s with
  | [] => Some acc
  | c :: s' => if is_digit c then numeral (acc * 10 + (c - 48)) s' else None
  end.

Definition array_index (k : jsstring) : option N :=
  match k with
  | [] => None
  | c :: rest =>
      if (c =? 48) && negb (is_empty rest) then None
      else match numeral 0 k with
           | Some n => if n <=? 4294967294 then Some n else None
           | None => None
           end
  end.

Definition is_index (e : jsstring * jsvalue) : bool :=
  match array_index (fst e) with Some _ => true | None => false end.

Definition index_after (a b : jsstring * jsvalue) : bool :=
  match array_index (fst a), array_index (fst b) with
  | Some i, Some j => j <? i
  | _, _ => false
  end.

Definition Object_entries (o : object) : list (jsstring * jsvalue) :=
  Array_sort index_after (filter is_index o)
  ++ filter (fun e => negb (is_index e)) o.

(** [([, a], [, b]) => b - a] is positive when [b] is the greater count; with
    a value that is not a number the difference is [NaN], which the sort
    reads as [+0]. *)
Definition count_after (a b : jsstring * jsvalue) : bool :=
  match snd a, snd b with
  | Count x, Count y => x <? y
  | _, _ => false
  end.

Definition extractKeywords (text : jsstring) : list jsstring :=
  let sortedWords :=
    map fst
      (firstn 8 (Array_sort count_after (Object_entries (wordFreq (words text)))))
  in sortedWords.

(** ** What is left to the engine

    With an entry whose value is not a number, [b - a] is [NaN] for every
    pair that holds it, which the sort reads as "equal". When two counts
    differ the comparator is then not consistent (the entry equals both, and
    they are not equal), and the language leaves the order of the result to
    the engine: nothing but the entries themselves is fixed.
    [extractKeywords] above takes the order of the stable insertion for that
    case too; [may_return] holds every list that some engine may return, and
    is the one list of [extractKeywords] when the comparator is consistent. *)
Definition numeric (e : jsstring * jsvalue) : bool :=
  match snd e with Count _ => true | NotNumeric => false end.

Definition count_of (e : jsstring * jsvalue) : N :=
  match snd e with Count n => n | NotNumeric => 0 end.

(** The comparator is consistent on [l]: every value is a number, or the
    numbers are all the same (and every comparison gives "equal"). *)
Definition consistent (l : list (jsstring * jsvalue)) : bool :=
  forallb numeric l
  || match filter numeric l with
     | [] => true
     | e :: rest => forallb (fun e' => count_of e' =? count_of e) rest
     end.

(** [r] may be the result of [l.sort(([, a], [, b]) => b - a)]. *)
Definition may_sort (l r : list (jsstring * jsvalue)) : Prop :=
  if consistent l then r = Array_sort count_after l else Permutation r l.

(** [r] may be the result of [extractKeywords(text)]. *)
Definition may_return (text : jsstring) (r : list jsstring) : Prop :=
  exists sorted,
    may_sort (Object_entries (wordFreq (words text))) sorted
    /\ r = map fst (firstn 8 sorted).

End Keywords.

(** * Numbers

    A JavaScript number is an IEEE 754 binary64 value. The page computes with
    non-negative finite values only; such a value is modelled as the rational
    it denotes, and an arithmetic operation as the exact operation followed
    by rounding to the nearest value with a 53-bit significand, ties to even.
    (The exponent range is not modelled: every value the page computes lies
    between 2^-7 and 2^64. Integers below 2^53, such as lengths and counts,
    are numbers exactly.) *)
Module Double.

Local Open Scope Q_scope.

(** [2^e], for any integer [e]. *)
Definition pow2 (e : Z) : Q := Qpower 2 e.

(** The binary exponent of [q]: the [e] with [2^e <= q < 2^(e+1)]. *)
Definition exponent (q : Q) : Z :=
  (Z.log2 (Qfloor (q * pow2 1100)) - 1100)%Z.

(** The integer nearest to [x], ties to even. *)
Definition nearest_even (x : Q) : Z :=
  let m := Qfloor x in
  match Qcompare (x - inject_Z m) (1 # 2) with
  | Lt => m
  | Gt => (m + 1)%Z
  | Eq => if Z.even m then m else (m + 1)%Z
  end.

(** Rounding to 53 significant bits: the unit in the last place of [q] is
    [2^(exponent q - 52)]. *)
Definition round (q : Q) : Q :=
  if Qle_bool q 0 then 0
  else
    let ulp := pow2 (exponent q - 52) in
    inject_Z (nearest_even (q / ulp)) * ulp.

Definition of_N (n : N) : Q := inject_Z (Z.of_N n).

Definition add (x y : Q) : Q := round (x + y).
Definition mul (x y : Q) : Q := round (x * y).
Definition div (x y : Q) : Q := round (x / y).

(** [x < y] *)
Definition ltb (x y : Q) : bool := negb (Qle_bool y x).

(** [Math.ceil] *)
Definition ceil (x : Q) : Z := Qceiling x.

End Double.

(** * The extractive fallback ([createExtractiveSummary], part_002 lines
    590-613) *)
Module Summary.

Import Keywords.

(** The class [[.!?]]. *)
Definition is_terminator (c : N) : bool := (c =? 46) || (c =? 33) || (c =? 63).

(** [text.split(/[.!?]+/).filter((s) => s.trim().length > 10)] *)
Definition sentences (text : jsstring) : list jsstring :=
  filter (fun s => 10 <? strlen (trim s)) (split_runs is_terminator text).

Record scored := { sentence : jsstring; score : Q }.

(** [keywordCount + sentence.length / 100] *)
Definition score_of (keywords : list jsstring) (s : jsstring) : Q :=
  let keywordCount :=
    List.length (filter (fun keyword => includes keyword s) keywords) in
  Double.add (Double.of_N (N.of_nat keywordCount))
             (Double.div (Double.of_N (strlen s)) (Double.of_N 100)).

(** [(a, b) => b.score - a.score] is positive when [a.score < b.score]. *)
Definition score_after (a b : scored) : bool := Double.ltb (score a) (score b).

(** [Math.max(2, Math.ceil(sentences.length * 0.4))] *)
Definition quota (n : nat) : nat :=
  Z.to_nat
    (Z.max 2 (Double.ceil
                (Double.mul (Double.of_N (N.of_nat n)) (Double.round (4 # 10))))).

Definition period : jsstring := Eval vm_compute in utf16 ".".
Definition period_space : jsstring := Eval vm_compute in utf16 ". ".

(** The body after the early return, for the keyword list [keywords]. *)
Definition select (keywords sentences : list jsstring) : list jsstring :=
  let scoredSentences :=
    map (fun s => {| sentence := trim s; score := score_of keywords s |})
        sentences in
  let topSentences :=
    map sentence
      (firstn (quota (List.length sentences))
              (Array_sort score_after scoredSentences)) in
  topSentences.

Definition createExtractiveSummary (text : jsstring) : jsstring :=
  let sentences := sentences text in
  if (List.length sentences <=? 3)%nat then text
  else
    let keywords := extractKeywords text in
    join period_space (select keywords sentences) ++ period.

End Summary.

(** * The summarization model

    [summarizerRef.current] is the pipeline of [@xenova/transformers], once it
    is loaded. A call either resolves to a list whose first element carries
    [summary_text], or throws (rejects), or resolves to something whose
    [[0].summary_text] cannot be read. The generation options passed along
    with the text are not modelled. *)
Module Model.

Inductive reply :=
| Summarized (summary_text : jsstring)
| Rejected
| Unusable.

Definition summarizer := jsstring -> reply.

End Model.

(** * The page of part_002 *)
Module Page.

Import Transcript Keywords.

Inductive environment := quiet | noisy | very_noisy.

(** The [useState] cells of [Home]. *)
Record State := mkState {
  isRecording : bool;
  transcription : jsstring;
  summary : jsstring;
  keywords : list jsstring;
  isLoading : bool;
  error : jsstring;
  micLevel : N;
  isListening : bool;
  environmentStatus : environment;
  reconnectAttempts : N;
  lastActivity : Z
}.

Definition setIsRecording v s :=
  mkState v (transcription s) (summary s) (keywords s) (isLoading s) (error s)
    (micLevel s) (isListening s) (environmentStatus s) (reconnectAttempts s)
    (lastActivity s).
Definition setTranscription v s :=
  mkState (isRecording s) v (summary s) (keywords s) (isLoading s) (error s)
    (micLevel s) (isListening s) (environmentStatus s) (reconnectAttempts s)
    (lastActivity s).
Definition setSummary v s :=
  mkState (isRecording s) (transcription s) v (keywords s) (isLoading s)
    (error s) (micLevel s) (isListening s) (environmentStatus s)
    (reconnectAttempts s) (lastActivity s).
Definition setKeywords v s :=
  mkState (isRecording s) (transcription s) (summary s) v (isLoading s)
    (error s) (micLevel s) (isListening s) (environmentStatus s)
    (reconnectAttempts s) (lastActivity s).
Definition setIsLoading v s :=
  mkState (isRecording s) (transcription s) (summary s) (keywords s) v
    (error s) (micLevel s) (isListening s) (environmentStatus s)
    (reconnectAttempts s) (lastActivity s).
Definition setError v s :=
  mkState (isRecording s) (transcription s) (summary s) (keywords s)
    (isLoading s) v (micLevel s) (isListening s) (environmentStatus s)
    (reconnectAttempts s) (lastActivity s).
Definition setIsListening v s :=
  mkState (isRecording s) (transcription s) (summary s) (keywords s)
    (isLoading s) (error s) (micLevel s) v (environmentStatus s)
    (reconnectAttempts s) (lastActivity s).
Definition setReconnectAttempts v s :=
  mkState (isRecording s) (transcription s) (summary s) (keywords s)
    (isLoading s) (error s) (micLevel s) (isListening s) (environmentStatus s)
    v (lastActivity s).
Definition setLastActivity v s :=
  mkState (isRecording s) (transcription s) (summary s) (keywords s)
    (isLoading s) (error s) (micLevel s) (isListening s) (environmentStatus s)
    (reconnectAttempts s) v.

(** The state of the first render; [now] is what [Date.now()] returned
    there. *)
Definition initial (now : Z) : State :=
  mkState false [] [] [] false [] 0 false quiet 0 now.

(** ** The recognition handlers

    The handlers are created by an effect whose dependency list is [[]]
    (lines 78-228), so they are created once. Inside them the identifiers
    [isRecording], [reconnectAttempts] and [lastActivity] denote the constants
    of the render the effect ran in; only the functional updates
    [setX((prev) => ...)] read the current state. A handler therefore takes
    the state [render] of the render that created it besides the current
    state [s]. *)

Definition onresult (now : Z) (ev : event) (s : State) : State :=
  setTranscription (onresult_transcript ev (transcription s))
    (setReconnectAttempts 0 (setLastActivity now s)).

Record error_event := { code : jsstring; message : jsstring }.

Definition network : jsstring := Eval vm_compute in utf16 "network".
Definition audio_capture : jsstring := Eval vm_compute in utf16 "audio-capture".
Definition aborted : jsstring := Eval vm_compute in utf16 "aborted".
Definition not_allowed : jsstring := Eval vm_compute in utf16 "not-allowed".
Definition service_not_allowed : jsstring :=
  Eval vm_compute in utf16 "service-not-allowed".

Definition transient (e : jsstring) : bool :=
  str_eqb e network || str_eqb e audio_capture || str_eqb e aborted.

(** [Math.min(1000 * Math.pow(2, reconnectAttempts), 10000)]; every power of
    two that is finite is exact, and an infinite one gives 10000 as well. *)
Definition error_delay (reconnectAttempts : N) : N :=
  N.min (1000 * 2 ^ reconnectAttempts) 10000.

(** [Math.min(500 + reconnectAttempts * 200, 2000)] *)
Definition end_delay (reconnectAttempts : N) : N :=
  N.min (500 + reconnectAttempts * 200) 2000.

Definition retrying (n : N) : jsstring :=
  utf16 "연결 문제 발생, 재시도 중... (" ++ of_number (n + 1) ++ utf16 "/5)".

Definition unknown_error : jsstring := Eval vm_compute in utf16 "알 수 없는 오류".

Definition recognition_error (ev : error_event) : jsstring :=
  utf16 "음성 인식 오류: " ++ code ev ++ utf16 " - "
  ++ (if is_empty (message ev) then unknown_error else message ev).

(** The tail of [onerror], reached when no retry is scheduled. *)
Definition report (ev : error_event) (s : State) : State :=
  let s := setError (recognition_error ev) s in
  if str_eqb (code ev) not_allowed || str_eqb (code ev) service_not_allowed
  then setIsRecording false s
  else s.

(** [recognition.onerror]: the new state and the delay of the retry timer it
    sets, if it sets one. *)
Definition onerror (render : State) (ev : error_event) (s : State)
  : State * option N :=
  if transient (code ev) then
    let s := setReconnectAttempts (reconnectAttempts s + 1) s in
    if reconnectAttempts render <? 5 then
      (setError (retrying (reconnectAttempts render)) s,
       Some (error_delay (reconnectAttempts render)))
    else (report ev s, None)
  else (report ev s, None).

Definition stopped : jsstring :=
  Eval vm_compute in utf16 "음성 인식이 중단되었습니다. 다시 시작해주세요.".

(** [recognition.onend] at time [now]: the new state and the delay of the
    restart timer it sets, if it sets one. *)
Definition onend (render : State) (now : Z) (s : State) : State * option N :=
  let s := setIsListening false s in
  if isRecording render then
    let timeSinceLastActivity := (now - lastActivity render)%Z in
    if (timeSinceLastActivity <? 30000)%Z && (reconnectAttempts render <? 5)
    then (s, Some (end_delay (reconnectAttempts render)))
    else (setIsRecording false (setError stopped s), None)
  else (s, None).

(** The callback of the retry timer of [onerror]: the state, and whether
    [recognition.start()] was called. ([recognitionRef.current] is set
    whenever the handlers exist; a [start()] that throws is only logged.) *)
Definition retry (render : State) (s : State) : State * bool :=
  if isRecording render then (s, true) else (s, false).

(** The callback of the restart timer of [onend]; [throws] tells whether
    [recognition.start()] throws. *)
Definition restart (render : State) (throws : bool) (s : State)
  : State * bool :=
  if isRecording render then
    if throws then (setReconnectAttempts (reconnectAttempts s + 1) s, true)
    else (setIsListening true s, true)
  else (s, false).

(** ** The controls

    [clearAll] and [summarizeText] are created by every render and read the
    state of the render the control was clicked in, here [s]. *)

Definition clearAll (now : Z) (s : State) : State :=
  setLastActivity now
    (setReconnectAttempts 0
       (setError [] (setKeywords [] (setSummary [] (setTranscription [] s))))).

Definition nothing_to_summarize : jsstring :=
  Eval vm_compute in utf16 "요약할 텍스트가 없습니다.".
Definition not_loaded : jsstring :=
  Eval vm_compute in utf16 "요약 모델이 아직 로딩되지 않았습니다.".
Definition summary_failed : jsstring :=
  Eval vm_compute in utf16 "텍스트 요약에 실패했습니다.".
Definition ellipsis : jsstring := Eval vm_compute in utf16 "...".

Definition maxLength : nat := 1000.

(** [processedText] *)
Definition preprocess (transcription : jsstring) : jsstring :=
  trim (collapse_spaces (strip_provisional transcription)).

(** [textToSummarize] *)
Definition clip (processedText : jsstring) : jsstring :=
  if (maxLength <? List.length processedText)%nat
  then substring0 maxLength processedText ++ ellipsis
  else processedText.

(** [summarizeText]: the state once the function has settled, and the texts
    it passed to the model, in order. *)
Definition summarizeText (summarizerRef : option Model.summarizer) (s : State)
  : State * list jsstring :=
  if is_empty (trim (transcription s)) then
    (setError nothing_to_summarize s, [])
  else
    match summarizerRef with
    | None => (setError not_loaded s, [])
    | Some summarizer =>
        let s := setError [] (setIsLoading true s) in
        let processedText := preprocess (transcription s) in
        let s := setKeywords (extractKeywords processedText) s in
        let textToSummarize := clip processedText in
        match summarizer textToSummarize with
        | Model.Summarized summary_text =>
            (setIsLoading false (setSummary summary_text s),
             [textToSummarize])
        | Model.Rejected =>
            (setIsLoading false
               (setSummary (Summary.createExtractiveSummary processedText) s),
             [textToSummarize])
        | Model.Unusable =>
            (setIsLoading false (setError summary_failed s),
             [textToSummarize])
        end
    end.

(** ** Recording, the microphone and the other effects

    What follows is the rest of [Home]: the controls that start and stop the
    recording, the volume monitor, the activity monitor, the loading of the
    model, the generation options and the text that is downloaded. A control
    or effect reports the calls it makes on the recognition object besides the
    new state. *)

Definition setMicLevel v s :=
  mkState (isRecording s) (transcription s) (summary s) (keywords s)
    (isLoading s) (error s) v (isListening s) (environmentStatus s)
    (reconnectAttempts s) (lastActivity s).
Definition setEnvironmentStatus v s :=
  mkState (isRecording s) (transcription s) (summary s) (keywords s)
    (isLoading s) (error s) (micLevel s) (isListening s) v
    (reconnectAttempts s) (lastActivity s).

(** [recognition.start()] and [recognition.stop()]. *)
Inductive call := Start | Stop.

(** [Math.round]: the nearest integer, a tie going up. *)
Definition Math_round (x : Q) : Z := Qfloor (x + (1 # 2)).

Definition sum (dataArray : list N) : N := fold_left N.add dataArray 0.

(** [Math.round(dataArray.reduce((a, b) => a + b) / dataArray.length)]. The
    array has [frequencyBinCount] elements, 128 for the [fftSize] of 256, so
    it is given by its first element and the others. *)
Definition roundedLevel (first : N) (others : list N) : N :=
  let dataArray := first :: others in
  let average :=
    Double.div (Double.of_N (sum dataArray))
               (Double.of_N (N.of_nat (List.length dataArray))) in
  Z.to_N (Math_round average).

Definition environment_of (roundedLevel : N) : environment :=
  if roundedLevel <? 10 then quiet
  else if roundedLevel <? 25 then noisy
  else very_noisy.

(** [monitorVolume], defined inside [setupMicrophoneMonitoring]: [render] is
    the state of the render whose [startRecording] called it. The result
    tells whether the next animation frame is requested. *)
Definition monitorVolume (render : State) (first : N) (others : list N)
  (s : State) : State * bool :=
  if isRecording render then
    let level := roundedLevel first others in
    (setEnvironmentStatus (environment_of level) (setMicLevel level s), true)
  else (s, false).

Definition microphone_denied : jsstring := Eval vm_compute in
  utf16 "마이크에 접근할 수 없습니다. 브라우저에서 마이크 권한을 허용해주세요.".

(** [setupMicrophoneMonitoring]: [microphone] is [None] when the stream or
    the audio graph cannot be had (the [catch]), and otherwise the bytes the
    analyser gives to the first call of [monitorVolume]. *)
Definition setupMicrophoneMonitoring (render : State)
  (microphone : option (N * list N)) (s : State) : State :=
  match microphone with
  | Some (first, others) => fst (monitorVolume render first others s)
  | None => setError microphone_denied s
  end.

(** [cleanupMicrophoneMonitoring]: besides releasing the audio objects. *)
Definition cleanupMicrophoneMonitoring (s : State) : State :=
  setEnvironmentStatus quiet (setMicLevel 0 s).

Definition cannot_start : jsstring := Eval vm_compute in
  utf16 "음성 인식을 시작할 수 없습니다. 잠시 후 다시 시도해주세요.".

(** [startRecording], clicked in the state [s]; [supported] tells whether
    [recognitionRef.current] is set, [throws] whether
    [recognition.start()] throws. ([cleanupReconnection] clears timers only.) *)
Definition startRecording (supported : bool) (microphone : option (N * list N))
  (throws : bool) (now : Z) (s : State) : State * list call :=
  if supported && negb (isRecording s) then
    let s1 :=
      setLastActivity now
        (setReconnectAttempts 0 (setIsRecording true (setError [] s))) in
    let s2 := setupMicrophoneMonitoring s microphone s1 in
    if throws then
      (cleanupMicrophoneMonitoring
         (setIsRecording false (setError cannot_start s2)), [Start])
    else (s2, [Start])
  else (s, []).

(** [startRecording] is [async]: the guard and the four updates run at the
    click, the rest after [await setupMicrophoneMonitoring()], once the
    microphone has been granted or refused, and other events can come in
    between. [startRecording_begins] is the first part (it tells whether the
    guard let the click through), [startRecording_resumes] the second, in the
    state [s] the page has by then; [render] is the state the button was
    clicked in. [startRecording] above is the click whose second part runs
    before any other event. *)
Definition startRecording_begins (supported : bool) (now : Z) (s : State)
  : State * bool :=
  if supported && negb (isRecording s) then
    (setLastActivity now
       (setReconnectAttempts 0 (setIsRecording true (setError [] s))), true)
  else (s, false).

Definition startRecording_resumes (render : State)
  (microphone : option (N * list N)) (throws : bool) (s : State)
  : State * list call :=
  let s2 := setupMicrophoneMonitoring render microphone s in
  if throws then
    (cleanupMicrophoneMonitoring
       (setIsRecording false (setError cannot_start s2)), [Start])
  else (s2, [Start]).

Definition stopRecording (supported : bool) (s : State) : State * list call :=
  if supported && isRecording s then
    (cleanupMicrophoneMonitoring
       (setReconnectAttempts 0 (setIsListening false (setIsRecording false s))),
     [Stop])
  else (s, []).

(** [recognition.onstart] *)
Definition onstart (s : State) : State := setIsListening true s.

(** The [onChange] of the text area. *)
Definition edit (value : jsstring) (s : State) : State :=
  setTranscription value s.

Definition inactive : jsstring := Eval vm_compute in
  utf16 "음성 인식이 비활성 상태입니다. 말씀해 주세요.".

(** The callback of the activity interval (lines 233-259), which exists while
    the session is recording; its effect depends on [isRecording],
    [lastActivity] and [reconnectAttempts], so it reads the current ones. The
    result tells whether it stops the recognition and sets the timer that
    starts it again. *)
Definition activityCheck (now : Z) (s : State) : State * list call :=
  let timeSinceLastActivity := (now - lastActivity s)%Z in
  let s1 :=
    if (30000 <? timeSinceLastActivity)%Z then setError inactive s else s in
  if (60000 <? timeSinceLastActivity)%Z && (reconnectAttempts s <? 3)
  then (s1, [Stop])
  else (s1, []).

(** The callback of that timer, one second later; [throws] tells whether
    [recognition.start()] throws, which nothing catches there. *)
Definition activityRestart (render : State) (throws : bool) (now : Z)
  (s : State) : State * list call :=
  if isRecording render then
    if throws then (s, [Start]) else (setLastActivity now s, [Start])
  else (s, []).

Definition load_failed : jsstring := Eval vm_compute in
  utf16 "요약 모델을 로딩하는데 실패했습니다.".

(** [initSummarizer]: [first] and [second] are what the two calls of
    [pipeline] give, [None] for one that fails. The result holds the new
    [summarizerRef.current]. *)
Definition initSummarizer (first second : option Model.summarizer)
  (summarizerRef : option Model.summarizer) (s : State)
  : State * option Model.summarizer :=
  let s := setIsLoading true s in
  match first with
  | Some summarizer => (setIsLoading false s, Some summarizer)
  | None =>
      match second with
      | Some fallbackSummarizer => (setIsLoading false s, Some fallbackSummarizer)
      | None => (setIsLoading false (setError load_failed s), summarizerRef)
      end
  end.

(** [max_length] and [min_length] of the call of the model, for the length of
    [textToSummarize]. *)
Definition max_length (inputLength : N) : Z :=
  let dynamicMaxLength :=
    Qmin (Qmax (Double.mul (Double.of_N inputLength) (Double.round (5 # 10))) 80)
         300 in
  Math_round dynamicMaxLength.

Definition min_length (inputLength : N) : Z :=
  let dynamicMinLength :=
    Qmax (Qmin (Double.mul (Double.of_N inputLength) (Double.round (3 # 10))) 40)
         30 in
  Math_round dynamicMinLength.

(** The [disabled] attributes of the buttons. *)
Definition start_disabled (s : State) : bool := isRecording s.
Definition stop_disabled (s : State) : bool := negb (isRecording s).
Definition summarize_disabled (s : State) : bool :=
  is_empty (trim (transcription s)) || isLoading s.
Definition download_disabled (s : State) : bool :=
  is_empty (trim (transcription s)).

Definition newline : jsstring := [10].

(** [downloadAsText]: the text of the file; [date] is what
    [new Date().toLocaleString("ko-KR")] gives. *)
Definition download_content (date : jsstring) (s : State) : jsstring :=
  let keywordsText :=
    if (0 <? List.length (keywords s))%nat then
      newline ++ newline ++ utf16 "[핵심 키워드]" ++ newline
      ++ join (utf16 ", ") (keywords s)
    else [] in
  utf16 "=== 발표 음성 인식 결과 ===" ++ newline ++ newline
  ++ utf16 "[원본 텍스트]" ++ newline ++ transcription s
  ++ newline ++ newline ++ utf16 "[요약]" ++ newline ++ summary s
  ++ keywordsText
  ++ newline ++ newline ++ utf16 "생성일시: " ++ date.

End Page.

(** * The page of app/page.tsx *)
Module PageV1.

Import Transcript.

Inductive environment := quiet | noisy | very_noisy.

Record State := mkState {
  isRecording : bool;
  transcription : jsstring;
  summary : jsstring;
  isLoading : bool;
  error : jsstring;
  micLevel : N;
  isListening : bool;
  environmentStatus : environment
}.

Definition setIsRecording v s :=
  mkState v (transcription s) (summary s) (isLoading s) (error s) (micLevel s)
    (isListening s) (environmentStatus s).
Definition setTranscription v s :=
  mkState (isRecording s) v (summary s) (isLoading s) (error s) (micLevel s)
    (isListening s) (environmentStatus s).
Definition setSummary v s :=
  mkState (isRecording s) (transcription s) v (isLoading s) (error s)
    (micLevel s) (isListening s) (environmentStatus s).
Definition setIsLoading v s :=
  mkState (isRecording s) (transcription s) (summary s) v (error s)
    (micLevel s) (isListening s) (environmentStatus s).
Definition setError v s :=
  mkState (isRecording s) (transcription s) (summary s) (isLoading s) v
    (micLevel s) (isListening s) (environmentStatus s).

Definition initial : State := mkState false [] [] false [] 0 false quiet.

Definition onresult (ev : event) (s : State) : State :=
  setTranscription (onresult_transcript ev (transcription s)) s.

(** [recognition.onerror], on [event.error]. *)
Definition onerror (code : jsstring) (s : State) : State :=
  setIsRecording false (setError (utf16 "음성 인식 오류: " ++ code) s).

Definition clearAll (s : State) : State :=
  setError [] (setSummary [] (setTranscription [] s)).

Definition clip (transcription : jsstring) : jsstring :=
  if (Page.maxLength <? List.length transcription)%nat
  then substring0 Page.maxLength transcription ++ Page.ellipsis
  else transcription.

Definition summarizeText (summarizerRef : option Model.summarizer) (s : State)
  : State * list jsstring :=
  if is_empty (trim (transcription s)) then
    (setError Page.nothing_to_summarize s, [])
  else
    match summarizerRef with
    | None => (setError Page.not_loaded s, [])
    | Some summarizer =>
        let s := setError [] (setIsLoading true s) in
        let textToSummarize := clip (transcription s) in
        match summarizer textToSummarize with
        | Model.Summarized summary_text =>
            (setIsLoading false (setSummary summary_text s),
             [textToSummarize])
        | _ =>
            (setIsLoading false (setError Page.summary_failed s),
             [textToSummarize])
        end
    end.

(** ** Recording and the microphone *)

Definition setMicLevel v s :=
  mkState (isRecording s) (transcription s) (summary s) (isLoading s) (error s)
    v (isListening s) (environmentStatus s).
Definition setIsListening v s :=
  mkState (isRecording s) (transcription s) (summary s) (isLoading s) (error s)
    (micLevel s) v (environmentStatus s).
Definition setEnvironmentStatus v s :=
  mkState (isRecording s) (transcription s) (summary s) (isLoading s) (error s)
    (micLevel s) (isListening s) v.

Definition environment_of (roundedLevel : N) : environment :=
  if roundedLevel <? 10 then quiet
  else if roundedLevel <? 25 then noisy
  else very_noisy.

Definition monitorVolume (render : State) (first : N) (others : list N)
  (s : State) : State * bool :=
  if isRecording render then
    let level := Page.roundedLevel first others in
    (setEnvironmentStatus (environment_of level) (setMicLevel level s), true)
  else (s, false).

Definition setupMicrophoneMonitoring (render : State)
  (microphone : option (N * list N)) (s : State) : State :=
  match microphone with
  | Some (first, others) => fst (monitorVolume render first others s)
  | None => setError Page.microphone_denied s
  end.

Definition cleanupMicrophoneMonitoring (s : State) : State :=
  setEnvironmentStatus quiet (setMicLevel 0 s).

Definition startRecording (supported : bool) (microphone : option (N * list N))
  (throws : bool) (s : State) : State * list Page.call :=
  if supported && negb (isRecording s) then
    let s1 := setIsRecording true (setError [] s) in
    let s2 := setupMicrophoneMonitoring s microphone s1 in
    if throws then
      (cleanupMicrophoneMonitoring
         (setIsRecording false (setError Page.cannot_start s2)), [Page.Start])
    else (s2, [Page.Start])
  else (s, []).

(** The two parts of the [async] function [startRecording]: before and
    after [await setupMicrophoneMonitoring()]. [startRecording] above is the
    click whose second part runs before any other event. *)
Definition startRecording_begins (supported : bool) (s : State)
  : State * bool :=
  if supported && negb (isRecording s) then
    (setIsRecording true (setError [] s), true)
  else (s, false).

Definition startRecording_resumes (render : State)
  (microphone : option (N * list N)) (throws : bool) (s : State)
  : State * list Page.call :=
  let s2 := setupMicrophoneMonitoring render microphone s in
  if throws then
    (cleanupMicrophoneMonitoring
       (setIsRecording false (setError Page.cannot_start s2)), [Page.Start])
  else (s2, [Page.Start]).

Definition stopRecording (supported : bool) (s : State)
  : State * list Page.call :=
  if supported && isRecording s then
    (cleanupMicrophoneMonitoring (setIsListening false (setIsRecording false s)),
     [Page.Stop])
  else (s, []).

(** [recognition.onend], created with the handlers in the render [render]:
    the new state, and whether it sets the timer of 100 ms. *)
Definition onend (render : State) (s : State) : State * bool :=
  if isRecording render then (s, true) else (setIsListening false s, false).

(** The callback of that timer; a [start()] that throws is only logged. *)
Definition restart (render : State) (throws : bool) (s : State)
  : State * list Page.call :=
  if isRecording render then
    if throws then (s, [Page.Start]) else (setIsListening true s, [Page.Start])
  else (s, []).

(** [recognition.onstart] *)
Definition onstart (s : State) : State := setIsListening true s.

(** The [onChange] of the text area. *)
Definition edit (value : jsstring) (s : State) : State :=
  setTranscription value s.

(** [downloadAsText]: the text of the file. *)
Definition download_content (date : jsstring) (s : State) : jsstring :=
  utf16 "=== 발표 음성 인식 결과 ===" ++ Page.newline ++ Page.newline
  ++ utf16 "[원본 텍스트]" ++ Page.newline ++ transcription s
  ++ Page.newline ++ Page.newline ++ utf16 "[요약]" ++ Page.newline
  ++ summary s
  ++ Page.newline ++ Page.newline ++ utf16 "생성일시: " ++ date.

(** [initSummarizer]: [loaded] is what the call of [pipeline] gives. *)
Definition initSummarizer (loaded : option Model.summarizer)
  (summarizerRef : option Model.summarizer) (s : State)
  : State * option Model.summarizer :=
  let s := setIsLoading true s in
  match loaded with
  | Some summarizer => (setIsLoading false s, Some summarizer)
  | None => (setIsLoading false (setError Page.load_failed s), summarizerRef)
  end.

End PageV1.

(** * The session of part_002, as it is wired

    Everything that can happen to the state of [Home] after the first render
    at time [t0]. The recognition handlers and the callbacks of their timers
    are the ones of the first render; a control reads the state it is clicked
    in. [monitorVolume] runs once, from [startRecording]: it asks for the next
    frame only after it found [isRecording] set, in the render that started
    the recording, so no frame ever follows.

    A click on "녹음 시작" is either [ClickStart], whose two parts run
    together, or [ClickStartBegins] followed, after any other actions, by
    [StartResumes] with the state the button was clicked in: the second part
    exists only for a click that the guard let through, so for a state that
    is not recording. *)
Module Session.

Import Transcript.

Inductive action :=
| Result (now : Z) (ev : event)
| Error (ev : Page.error_event)
| End (now : Z)
| Started
| RetryTimer
| RestartTimer (throws : bool)
| ClickStart (microphone : option (N * list N)) (throws : bool) (now : Z)
| ClickStartBegins (now : Z)
| StartResumes (render : Page.State) (microphone : option (N * list N))
    (throws : bool)
| ClickStop
| ClickSummarize (summarizerRef : option Model.summarizer)
| ClickClear (now : Z)
| Edit (value : jsstring)
| ActivityTick (now : Z)
| ActivityRestart (render : Page.State) (throws : bool) (now : Z)
| ModelLoaded (first second : option Model.summarizer).

Definition step (t0 : Z) (a : action) (s : Page.State) : Page.State :=
  match a with
  | Result now ev => Page.onresult now ev s
  | Error ev => fst (Page.onerror (Page.initial t0) ev s)
  | End now => fst (Page.onend (Page.initial t0) now s)
  | Started => Page.onstart s
  | RetryTimer => fst (Page.retry (Page.initial t0) s)
  | RestartTimer throws => fst (Page.restart (Page.initial t0) throws s)
  | ClickStart microphone throws now =>
      fst (Page.startRecording true microphone throws now s)
  | ClickStartBegins now => fst (Page.startRecording_begins true now s)
  | StartResumes render microphone throws =>
      if Page.isRecording render then s
      else fst (Page.startRecording_resumes render microphone throws s)
  | ClickStop => fst (Page.stopRecording true s)
  | ClickSummarize summarizerRef => fst (Page.summarizeText summarizerRef s)
  | ClickClear now => Page.clearAll now s
  | Edit value => Page.edit value s
  | ActivityTick now => fst (Page.activityCheck now s)
  | ActivityRestart render throws now =>
      fst (Page.activityRestart render throws now s)
  | ModelLoaded first second => fst (Page.initSummarizer first second None s)
  end.

Definition run (t0 : Z) (actions : list action) : Page.State :=
  fold_left (fun s a => step t0 a s) actions (Page.initial t0).

(** The recognition events and the callbacks of the recognition's timers. *)
Definition of_recognition (a : action) : bool :=
  match a with
  | Result _ _ | End _ | Started | RetryTimer | RestartTimer _ => true
  | _ => false
  end.

End Session.

(** * The session of app/page.tsx, as it is wired

    The same for the earlier revision, with the calls made on the recognition
    object. A click on "녹음 시작" runs the first part of [startRecording];
    the second part runs when the microphone is granted or refused, after
    whatever other actions come in between. The state of a session is the
    state of the page, the states in which the clicks were made whose second
    part has not run yet (oldest first), and the calls made so far, in
    order. *)
Module SessionV1.

Import Transcript.

Inductive action :=
| Result (ev : event)
| Error (code : jsstring)
| End
| Started
| RestartTimer (throws : bool)
| ClickStart
| MicrophoneSettles (microphone : option (N * list N)) (throws : bool)
| ClickStop
| ClickSummarize (summarizerRef : option Model.summarizer)
| ClickClear
| Edit (value : jsstring)
| ModelLoaded (loaded : option Model.summarizer).

Record state := mkSession {
  page : PageV1.State;
  awaiting : list PageV1.State;
  calls : list Page.call
}.

Definition initial : state := mkSession PageV1.initial [] [].

(** An action that changes the page only. *)
Definition on (st : state) (s : PageV1.State) : state :=
  mkSession s (awaiting st) (calls st).

(** An action that changes the page and makes calls. *)
Definition calling (st : state) (r : PageV1.State * list Page.call) : state :=
  mkSession (fst r) (awaiting st) (calls st ++ snd r).

Definition step (a : action) (st : state) : state :=
  let s := page st in
  match a with
  | Result ev => on st (PageV1.onresult ev s)
  | Error code => on st (PageV1.onerror code s)
  | End => on st (fst (PageV1.onend PageV1.initial s))
  | Started => on st (PageV1.onstart s)
  | RestartTimer throws => calling st (PageV1.restart PageV1.initial throws s)
  | ClickStart =>
      let (s', through) := PageV1.startRecording_begins true s in
      mkSession s' (if through then awaiting st ++ [s] else awaiting st)
        (calls st)
  | MicrophoneSettles microphone throws =>
      match awaiting st with
      | [] => st
      | render :: rest =>
          let (s', made) :=
            PageV1.startRecording_resumes render microphone throws s in
          mkSession s' rest (calls st ++ made)
      end
  | ClickStop => calling st (PageV1.stopRecording true s)
  | ClickSummarize summarizerRef =>
      on st (fst (PageV1.summarizeText summarizerRef s))
  | ClickClear => on st (PageV1.clearAll s)
  | Edit value => on st (PageV1.edit value s)
  | ModelLoaded loaded => on st (fst (PageV1.initSummarizer loaded None s))
  end.

Definition run (actions : list action) : state :=
  fold_left (fun st a => step a st) actions initial.

Definition is_start (c : Page.call) : bool :=
  match c with Page.Start => true | Page.Stop => false end.

Definition is_click_start (a : action) : bool :=
  match a with ClickStart => true | _ => false end.

(** The recognition events and the callback of the recognition's timer. *)
Definition of_recognition (a : action) : bool :=
  match a with
  | Result _ | Error _ | End | Started | RestartTimer _ => true
  | _ => false
  end.

End SessionV1.

(** * Statements of the specification

    Definitions that follow the words of the specification, to be compared
    with the ones above. *)
Module Spec.

Import Transcript.

(** "The old transcript truncated at the first occurrence of the provisional
    marker (the whole old transcript when no marker is present)". *)
Fixpoint truncate_at (p s : jsstring) : jsstring :=
  if starts_with p s then []
  else match s with
       | [] => []
       | c :: s' => c :: truncate_at p s'
       end.

(** "The concatenation of the finalized segments' texts, each followed by a
    single space". *)
Definition finalized (ev : event) : jsstring :=
  List.concat (map (fun r => text r ++ [32]) ev).

(** "Discard every token of length less than 2 or contained in the fixed
    stop-word set". *)
Definition significant (w : jsstring) : bool :=
  (2 <=? strlen w) && negb (Keywords.has Keywords.stopWords w).

(** "Count occurrences of the remaining tokens". *)
Definition count (ws : list jsstring) (w : jsstring) : nat :=
  List.length (filter (str_eqb w) ws).

(** "Sort the distinct tokens by count in descending order": [l] lists each
    token of [ws] once, a token never after one that occurs less often. *)
Definition ranked (ws l : list jsstring) : Prop :=
  NoDup l
  /\ (forall w, In w l <-> In w ws)
  /\ StronglySorted (fun a b => (count ws b <= count ws a)%nat) l.

(** "Return the first at most 8 tokens". *)
Definition top8 (ws r : list jsstring) : Prop :=
  exists l, ranked ws l /\ r = firstn 8 l.

(** C3 as stated: provisional segments and the characters other than word
    characters and white space are removed, and the rest is split on white
    space. (The provisional segment is what the marker introduces, up to the
    end of the text.) *)
Definition tokens (text : jsstring) : list jsstring :=
  split_runs is_space
    (filter Keywords.keeps (truncate_at provisional text)).

(** C3 as amended: every character other than a word character or white
    space is replaced by a space, and the result is split on white space. *)
Definition tokens_blanked (text : jsstring) : list jsstring :=
  split_runs is_space (map (fun c => if Keywords.keeps c then c else 32) text).

(** No token is the name of a property that [Object.prototype] holds. *)
Definition plain (ws : list jsstring) : bool :=
  forallb
    (fun w =>
       negb (Keywords.has Keywords.inherited w)
       && negb (str_eqb w Keywords.proto_accessor))
    ws.

End Spec.


(** * Scenarios and auxiliary definitions *)

Import Transcript Keywords.

(** A result event with one interim segment. *)
Definition interim (s : string) : event := [{| isFinal := false; text := utf16 s |}].

(** The state after a finalized segment "안녕" and then an interim segment
    "하세요". *)
Definition greeting : Page.State :=
  Page.onresult 2 (interim "하세요")
    (Page.onresult 1 [{| isFinal := true; text := utf16 "안녕" |}]
       (Page.initial 0)).

(** A recording session in which five transient errors have been counted. *)
Definition fifth (now : Z) : Page.State :=
  Page.setReconnectAttempts 5 (Page.setIsRecording true (Page.initial now)).

Definition network_error : Page.error_event :=
  {| Page.code := Page.network; Page.message := [] |}.

(** The session after a click on "녹음 시작" at time [t0] and then [n]
    network errors in a row. *)
Definition errors_in_a_row (t0 : Z) (n : nat) : Page.State :=
  Session.run t0
    (Session.ClickStart (Some (0, [])) false t0
       :: repeat (Session.Error network_error) n).

(** A text of four sentences and a short fragment. *)
Definition minutes : jsstring := Eval vm_compute in
  utf16 "오늘 회의 일정을 공유합니다. 내일 회의 장소는 본관 회의실입니다! 다음 주 일정은 아직 미정입니다? 회의 자료는 메일로 보내드리겠습니다. 짧다.".

Definition nonempty (w : jsstring) : bool := negb (is_empty w).

(** What the frequency object holds under the key [k] once the words [seen]
    have been tallied: nothing for a word that is discarded, that has not
    occurred, or that is [__proto__]; a string for the name of a function of
    [Object.prototype]; the number of occurrences otherwise. *)
Definition expected (seen : list jsstring) (k : jsstring) : option jsvalue :=
  if negb (Spec.significant k) || (Spec.count seen k =? 0)%nat
     || str_eqb k proto_accessor
  then None
  else if has inherited k then Some NotNumeric
  else Some (Count (N.of_nat (Spec.count seen k))).

(** The entries of the frequency object of [text], as [extractKeywords] has
    them after the sort. *)
Definition sorted_entries (text : jsstring) : list (jsstring * jsvalue) :=
  Array_sort count_after (Object_entries (wordFreq (words text))).

(** What a keyword list is. *)
Definition keyword_list (ks : list jsstring) : Prop :=
  NoDup ks
  /\ (List.length ks <= 8)%nat
  /\ (forall w, In w ks -> 2 <= strlen w /\ has stopWords w = false).

(** [w] occurs in [s]: a string [a] stands before it and a string [b]
    after it. *)
Definition infix (w s : jsstring) : Prop := exists a b, s = a ++ w ++ b.

Definition str_eq_dec : forall a b : jsstring, {a = b} + {a <> b} :=
  list_eq_dec N.eq_dec.

(** What a run of the earlier revision keeps: the meter at rest, no pending
    click made in a recording state, and a click on "녹음 시작" for every
    call of [start()] made or still to come. *)
Definition keptV1 (actions : list SessionV1.action) (st : SessionV1.state)
  : Prop :=
  PageV1.micLevel (SessionV1.page st) = 0
  /\ PageV1.environmentStatus (SessionV1.page st) = PageV1.quiet
  /\ Forall (fun render => PageV1.isRecording render = false)
            (SessionV1.awaiting st)
  /\ (List.length (filter SessionV1.is_start (SessionV1.calls st))
      + List.length (SessionV1.awaiting st)
      <= List.length (filter SessionV1.is_click_start actions))%nat.

(** ** The hardware's binary64

    The kernel's primitive floats, to compare the module [Double] with. *)
Module Binary64.

Definition to_Q (f : float) : Q :=
  match Prim2SF f with
  | S754_finite false m e => (inject_Z (Zpos m) * Double.pow2 e)%Q
  | S754_zero _ => 0%Q
  | _ => (-1)%Q
  end.

Definition of_N (n : N) : float := PrimFloat.of_uint63 (of_Z (Z.of_N n)).

Definition upto (n : nat) : list N := map N.of_nat (seq 0 n).

(** [n * 0.4] *)
Definition agree_product (n : N) : bool :=
  Qeq_bool
    (to_Q (PrimFloat.mul (of_N n) 0x1.999999999999ap-2%float))
    (Double.mul (Double.of_N n) (Double.round (4 # 10))).

(** [k + len / 100] *)
Definition agree_score (k len : N) : bool :=
  Qeq_bool
    (to_Q (PrimFloat.add (of_N k) (PrimFloat.div (of_N len) (of_N 100))))
    (Double.add (Double.of_N k)
                (Double.div (Double.of_N len) (Double.of_N 100))).

End Binary64.

(** * Strings: facts *)

Lemma str_eqb_eq (a b : jsstring) : str_eqb a b = true <-> a = b.
Proof.
  revert b; induction a as [|x a IH]; intros [|y b]; simpl;
    try (split; (discriminate || reflexivity)).
  rewrite andb_true_iff, N.eqb_eq, IH.
  split; [intros [-> ->]; reflexivity | intros [= -> ->]; auto].
Qed.

Lemma str_eqb_refl (a : jsstring) : str_eqb a a = true.
Proof. apply str_eqb_eq; reflexivity. Qed.

Lemma str_eqb_neq (a b : jsstring) : str_eqb a b = false <-> a <> b.
Proof.
  rewrite <- str_eqb_eq; destruct (str_eqb a b); split; congruence.
Qed.

Lemma indexOf_truncate (p s : jsstring) :
  match indexOf p s with
  | Some i => substring0 i s
  | None => s
  end = Spec.truncate_at p s.
Proof.
  induction s as [|c s IH]; simpl.
  - destruct (starts_with p []); reflexivity.
  - destruct (starts_with p (c :: s)); [reflexivity|].
    rewrite <- IH; destruct (indexOf p s); reflexivity.
Qed.

(** [truncate_at p s] is the part of [s] before the first occurrence of [p]:
    [p] stands right after it, unless it is all of [s], and [p] stands at no
    index inside it. *)
Lemma truncate_at_first (p s : jsstring) :
  exists rest,
    s = Spec.truncate_at p s ++ rest
    /\ (rest = [] \/ starts_with p rest = true)
    /\ forall i, (i < List.length (Spec.truncate_at p s))%nat ->
                 starts_with p (skipn i s) = false.
Proof.
  induction s as [|c s (rest & E & Hrest & Hbefore)].
  - exists []; simpl; destruct (starts_with p []); simpl; repeat split; auto;
      intros i Hi; inversion Hi.
  - cbn [Spec.truncate_at]; destruct (starts_with p (c :: s)) eqn:Hc.
    + exists (c :: s); repeat split; auto; intros i Hi; inversion Hi.
    + exists rest; split; [simpl; congruence|]; split; [exact Hrest|].
      intros [|i] Hi; [exact Hc|]; simpl in *; apply Hbefore; lia.
Qed.

Lemma collect_final (ev : event) (fin interim : jsstring) :
  forallb isFinal ev = true ->
  collect ev fin interim = (fin ++ Spec.finalized ev, interim).
Proof.
  revert fin; induction ev as [|r ev IH]; intros fin H; simpl in *.
  - rewrite app_nil_r; reflexivity.
  - apply andb_true_iff in H as [Hr Hev]; rewrite Hr, IH by assumption.
    unfold Spec.finalized; simpl; rewrite <- !app_assoc; reflexivity.
Qed.

Lemma finalized_nonempty (ev : event) : ev <> [] -> Spec.finalized ev <> [].
Proof.
  destruct ev as [|r ev]; [congruence|]; intros _.
  unfold Spec.finalized; simpl; destruct (text r); discriminate.
Qed.

Lemma onresult_final (ev : event) (prev : jsstring) :
  ev <> [] -> forallb isFinal ev = true ->
  onresult_transcript ev prev
  = Spec.truncate_at provisional prev ++ Spec.finalized ev.
Proof.
  intros Hne Hfin; unfold onresult_transcript.
  rewrite (collect_final ev [] [] Hfin); simpl.
  destruct (Spec.finalized ev) eqn:E.
  - exfalso; exact (finalized_nonempty ev Hne E).
  - simpl; rewrite <- indexOf_truncate; reflexivity.
Qed.

(** * The transcript: theorems *)

Lemma starts_with_app (p s t : jsstring) :
  starts_with p s = true -> starts_with p (s ++ t) = true.
Proof.
  revert s; induction p as [|x p IH]; intros [|y s]; simpl; try congruence.
  rewrite !andb_true_iff; intros [H1 H2]; auto.
Qed.

Lemma starts_with_self (p t : jsstring) : starts_with p (p ++ t) = true.
Proof.
  induction p as [|x p IH]; simpl; [reflexivity|].
  rewrite N.eqb_refl; exact IH.
Qed.

Lemma occurrences_app (p a b : jsstring) :
  p <> [] ->
  (occurrences p a + occurrences p b <= occurrences p (a ++ b))%nat.
Proof.
  intros Hp; induction a as [|c a IH].
  - destruct p; [congruence | simpl; lia].
  - cbn [occurrences app].
    destruct (starts_with p (c :: a)) eqn:E.
    + change (c :: a ++ b) with ((c :: a) ++ b).
      rewrite (starts_with_app _ _ b E); lia.
    + destruct (starts_with p (c :: a ++ b)); lia.
Qed.

(** Every result event with an interim text adds a marker to a transcript
    that holds no "[최종]" tag, and drops none. *)
Lemma interim_event_adds_marker (ev : event) (prev : jsstring) :
  lastIndexOf final_tag prev = None ->
  snd (collect ev [] []) <> [] ->
  (occurrences provisional prev + 1
   <= occurrences provisional (onresult_transcript ev prev))%nat.
Proof.
  intros Htag Hint; unfold onresult_transcript.
  destruct (collect ev [] []) as [fin inter]; simpl in Hint.
  destruct inter as [|c inter]; [congruence|]; cbn [is_empty negb].
  rewrite Htag.
  assert (Hp : provisional <> []) by discriminate.
  pose proof (occurrences_app provisional prev
                (fin ++ provisional ++ [32] ++ c :: inter) Hp) as H1.
  pose proof (occurrences_app provisional fin
                (provisional ++ [32] ++ c :: inter) Hp) as H2.
  assert (H3 : (1 <= occurrences provisional
                       (provisional ++ [32%N] ++ c :: inter))%nat).
  { remember ([32] ++ c :: inter) as rest.
    destruct (provisional ++ rest) as [|y s] eqn:E; [discriminate E|].
    cbn [occurrences]; rewrite <- E, starts_with_self; lia. }
  cbv zeta; lia.
Qed.

(** C1. The transcript should hold at most one provisional marker after
    every result event. Two result events in a row that each carry one
    interim segment, starting from the empty transcript, leave two markers:
    the update that should drop the previous provisional text searches for
    the tag [[최종]], which nothing writes, so the previous marker and text
    stay. Both revisions behave so. *)
Theorem two_interim_events_C1 :
  Page.transcription
    (Page.onresult 2 (interim "b") (Page.onresult 1 (interim "a") (Page.initial 0)))
  = utf16 "[임시] a[임시] b"
  /\ occurrences provisional
       (Page.transcription
          (Page.onresult 2 (interim "b")
             (Page.onresult 1 (interim "a") (Page.initial 0)))) = 2%nat
  /\ occurrences provisional
       (PageV1.transcription
          (PageV1.onresult (interim "b")
             (PageV1.onresult (interim "a") PageV1.initial))) = 2%nat.
Proof. repeat split; vm_compute; reflexivity. Qed.

(** C5, as stated: every result event without an interim segment truncates
    the transcript at the first marker and appends the finalized texts. It
    fails for the event that carries no segment at all: both accumulators stay
    empty, neither update runs, and a pending provisional segment is kept. *)
Lemma final_event_C5_fails :
  ~ (forall (now : Z) (ev : event) (s : Page.State),
        forallb isFinal ev = true ->
        Page.transcription (Page.onresult now ev s)
        = Spec.truncate_at provisional (Page.transcription s)
          ++ Spec.finalized ev).
Proof.
  intros H.
  specialize (H 2%Z [] (Page.onresult 1 (interim "a") (Page.initial 0)) eq_refl).
  vm_compute in H; discriminate H.
Qed.

(** C5, amended: a result event with at least one segment, all of them
    finalized, replaces the transcript by the old transcript truncated at the
    first provisional marker followed by the finalized texts, each followed by
    one space; a result event with no segment leaves the transcript as it
    is. In both revisions. *)
Theorem final_event_C5 (now : Z) (ev : event) (s : Page.State) (s1 : PageV1.State) :
  forallb isFinal ev = true ->
  Page.transcription (Page.onresult now ev s)
  = match ev with
    | [] => Page.transcription s
    | _ :: _ =>
        Spec.truncate_at provisional (Page.transcription s) ++ Spec.finalized ev
    end
  /\ PageV1.transcription (PageV1.onresult ev s1)
     = match ev with
       | [] => PageV1.transcription s1
       | _ :: _ =>
           Spec.truncate_at provisional (PageV1.transcription s1)
           ++ Spec.finalized ev
       end.
Proof.
  intros Hfin; destruct ev as [|r ev]; [split; reflexivity|].
  split; simpl; apply onresult_final; (discriminate || assumption).
Qed.

Lemma final_event_C5_witness :
  Page.transcription
    (Page.onresult 2 [{| isFinal := true; text := utf16 "b" |}]
       (Page.onresult 1 (interim "a") (Page.initial 0)))
  = utf16 "b ".
Proof.
  exact (proj1 (final_event_C5 2 [{| isFinal := true; text := utf16 "b" |}]
                  (Page.onresult 1 (interim "a") (Page.initial 0))
                  PageV1.initial eq_refl)).
Defined.

(** * The handlers and controls: theorems *)

Lemma literal_app_nonempty (a b : jsstring) : a <> [] -> a ++ b <> [].
Proof. destruct a; [congruence | discriminate]. Qed.

Lemma report_error (ev : Page.error_event) (s : Page.State) :
  Page.error (Page.report ev s) = Page.recognition_error ev.
Proof.
  unfold Page.report.
  destruct (str_eqb _ _ || str_eqb _ _); reflexivity.
Qed.

(** C6. Every call of the recognition error handler, whatever the error code
    and message, whatever the render it was created in and the current
    state, leaves a non-empty error message; in both revisions. *)
Theorem onerror_sets_message_C6 :
  (forall (render s : Page.State) (ev : Page.error_event),
      Page.error (fst (Page.onerror render ev s)) <> [])
  /\ (forall (code : jsstring) (s : PageV1.State),
         PageV1.error (PageV1.onerror code s) <> []).
Proof.
  split.
  - intros render s ev; unfold Page.onerror.
    destruct (Page.transient _); [destruct (_ <? 5)|]; simpl;
      rewrite ?report_error;
      apply literal_app_nonempty; vm_compute; discriminate.
  - intros code s; simpl; discriminate.
Qed.

(** C7. [clearAll] empties the transcript, the summary, the keyword list and
    the error message and resets the reconnect count to 0; the recording
    flag, the listening flag, the microphone level and the environment status
    keep their values. (The revision of app/page.tsx has no keyword list and
    no reconnect count; its [clearAll] empties the other three and keeps the
    same four.) *)
Theorem clearAll_frame_C7 :
  (forall (now : Z) (s : Page.State),
      Page.transcription (Page.clearAll now s) = []
      /\ Page.summary (Page.clearAll now s) = []
      /\ Page.keywords (Page.clearAll now s) = []
      /\ Page.error (Page.clearAll now s) = []
      /\ Page.reconnectAttempts (Page.clearAll now s) = 0
      /\ Page.isRecording (Page.clearAll now s) = Page.isRecording s
      /\ Page.isListening (Page.clearAll now s) = Page.isListening s
      /\ Page.micLevel (Page.clearAll now s) = Page.micLevel s
      /\ Page.environmentStatus (Page.clearAll now s) = Page.environmentStatus s)
  /\ (forall s : PageV1.State,
         PageV1.transcription (PageV1.clearAll s) = []
         /\ PageV1.summary (PageV1.clearAll s) = []
         /\ PageV1.error (PageV1.clearAll s) = []
         /\ PageV1.isRecording (PageV1.clearAll s) = PageV1.isRecording s
         /\ PageV1.isListening (PageV1.clearAll s) = PageV1.isListening s
         /\ PageV1.micLevel (PageV1.clearAll s) = PageV1.micLevel s
         /\ PageV1.environmentStatus (PageV1.clearAll s)
            = PageV1.environmentStatus s).
Proof. split; intros; repeat split; reflexivity. Qed.

Lemma trimStart_blank (s : jsstring) :
  forallb is_space s = true -> trimStart s = [].
Proof.
  induction s as [|c s IH]; simpl; [reflexivity|].
  intros H; apply andb_true_iff in H as [-> Hs]; auto.
Qed.

Lemma trim_blank (s : jsstring) : forallb is_space s = true -> trim s = [].
Proof. intros H; unfold trim; rewrite (trimStart_blank s H); reflexivity. Qed.

(** C8. When the transcript is empty or all white space, or the model is not
    loaded yet, [summarizeText] calls the model with nothing and changes
    nothing but the error message, which it sets to a non-empty text; so the
    summary, the keyword list and the transcript are as before. In both
    revisions. *)
Theorem summarize_guard_C8
  (summarizerRef : option Model.summarizer) (s : Page.State) (s1 : PageV1.State) :
  forallb is_space (Page.transcription s) = true \/ summarizerRef = None ->
  forallb is_space (PageV1.transcription s1) = true \/ summarizerRef = None ->
  (snd (Page.summarizeText summarizerRef s) = []
   /\ Page.error (fst (Page.summarizeText summarizerRef s)) <> []
   /\ fst (Page.summarizeText summarizerRef s)
      = Page.setError (Page.error (fst (Page.summarizeText summarizerRef s))) s
   /\ Page.summary (fst (Page.summarizeText summarizerRef s)) = Page.summary s
   /\ Page.keywords (fst (Page.summarizeText summarizerRef s)) = Page.keywords s
   /\ Page.transcription (fst (Page.summarizeText summarizerRef s))
      = Page.transcription s)
  /\ (snd (PageV1.summarizeText summarizerRef s1) = []
      /\ PageV1.error (fst (PageV1.summarizeText summarizerRef s1)) <> []
      /\ fst (PageV1.summarizeText summarizerRef s1)
         = PageV1.setError
             (PageV1.error (fst (PageV1.summarizeText summarizerRef s1))) s1
      /\ PageV1.summary (fst (PageV1.summarizeText summarizerRef s1))
         = PageV1.summary s1
      /\ PageV1.transcription (fst (PageV1.summarizeText summarizerRef s1))
         = PageV1.transcription s1).
Proof.
  intros H H1; split.
  - unfold Page.summarizeText.
    destruct (is_empty (trim (Page.transcription s))) eqn:E.
    + simpl; repeat split; discriminate.
    + destruct H as [H | ->].
      * rewrite (trim_blank _ H) in E; discriminate E.
      * simpl; repeat split; discriminate.
  - unfold PageV1.summarizeText.
    destruct (is_empty (trim (PageV1.transcription s1))) eqn:E.
    + simpl; repeat split; discriminate.
    + destruct H1 as [H1 | ->].
      * rewrite (trim_blank _ H1) in E; discriminate E.
      * simpl; repeat split; discriminate.
Qed.

Lemma summarize_guard_C8_witness :
  snd (Page.summarizeText (Some (fun _ => Model.Rejected))
         (Page.setTranscription (utf16 "  ") (Page.initial 0))) = []
  /\ snd (PageV1.summarizeText None
            (PageV1.setTranscription (utf16 "발표") PageV1.initial)) = [].
Proof.
  split.
  - exact (proj1 (proj1 (summarize_guard_C8 (Some (fun _ => Model.Rejected))
                           (Page.setTranscription (utf16 "  ") (Page.initial 0))
                           PageV1.initial (or_introl eq_refl) (or_introl eq_refl)))).
  - exact (proj1 (proj2 (summarize_guard_C8 None (Page.initial 0)
                           (PageV1.setTranscription (utf16 "발표") PageV1.initial)
                           (or_intror eq_refl) (or_intror eq_refl)))).
Defined.


Lemma clip_length (s : jsstring) : (List.length (Page.clip s) <= 1003)%nat.
Proof.
  unfold Page.clip.
  destruct (Page.maxLength <? List.length s)%nat eqn:E.
  - rewrite length_app; unfold substring0.
    rewrite firstn_length_le.
    + reflexivity.
    + apply Nat.ltb_lt in E; lia.
  - apply Nat.ltb_ge in E; unfold Page.maxLength in E; lia.
Qed.

(** C9. What [summarizeText] passes to the model, whenever it calls it, is
    the transcript after the three replacements, cut to its first 1000 code
    units followed by "..." when it is longer, so never more than 1003 code
    units. The first replacement does not remove the provisional segment: in
    the transcript "안녕 [임시] 하세요", as [onresult] writes it, the match
    ends at the space after the marker, and the provisional text "하세요"
    reaches the model. *)
Theorem provisional_text_summarized_C9 (summarizer : Model.summarizer) :
  Page.transcription greeting = utf16 "안녕 [임시] 하세요"
  /\ snd (Page.summarizeText (Some summarizer) greeting) = [utf16 "안녕 하세요"]
  /\ (forall s : Page.State,
         snd (Page.summarizeText (Some summarizer) s) = []
         \/ snd (Page.summarizeText (Some summarizer) s)
            = [Page.clip (trim (collapse_spaces
                                  (strip_provisional (Page.transcription s))))])
  /\ (forall s : Page.State,
         Forall (fun input => (List.length input <= 1003)%nat)
                (snd (Page.summarizeText (Some summarizer) s))).
Proof.
  assert (shape : forall s : Page.State,
             snd (Page.summarizeText (Some summarizer) s) = []
             \/ snd (Page.summarizeText (Some summarizer) s)
                = [Page.clip (Page.preprocess (Page.transcription s))]).
  { intros s; unfold Page.summarizeText.
    destruct (is_empty _); [left; reflexivity|right].
    simpl; destruct (summarizer _); reflexivity. }
  split; [vm_compute; reflexivity|].
  split.
  { unfold Page.summarizeText.
    change (is_empty (trim (Page.transcription greeting))) with false.
    cbv iota.
    change (Page.clip _) with (utf16 "안녕 하세요").
    destruct (summarizer _); reflexivity. }
  split; [exact shape|].
  intros s; destruct (shape s) as [E | E]; rewrite E.
  - constructor.
  - constructor; [apply clip_length | constructor].
Qed.

(** * Retries: theorems *)

Lemma pow2_mono (n m : N) : n <= m -> 2 ^ n <= 2 ^ m.
Proof. intros H; apply N.pow_le_mono_r; [discriminate | exact H]. Qed.

(** What each handler computes from the reconnect count [n] it reads, which
    is the one of the render that created the handler. After a transient
    error a timer is set exactly when [n < 5], with delay
    min(1000 * 2^n, 10000); after an end of the session a timer is set exactly
    when the session is recording, the last activity is less than 30 s old and
    [n < 5], with delay min(500 + 200 * n, 2000). Both delays are monotone in
    [n] and bounded by 10000 and 2000. *)
Lemma handler_delay_formulas (n m : N) :
  n <= m ->
  (forall (render s : Page.State) (ev : Page.error_event),
      Page.reconnectAttempts render = n ->
      snd (Page.onerror render ev s)
      = if Page.transient (Page.code ev) && (n <? 5)
        then Some (N.min (1000 * 2 ^ n) 10000) else None)
  /\ (forall (render s : Page.State) (now : Z),
         Page.reconnectAttempts render = n ->
         snd (Page.onend render now s)
         = if Page.isRecording render
              && (now - Page.lastActivity render <? 30000)%Z && (n <? 5)
           then Some (N.min (500 + 200 * n) 2000) else None)
  /\ N.min (1000 * 2 ^ n) 10000 <= N.min (1000 * 2 ^ m) 10000
  /\ N.min (1000 * 2 ^ n) 10000 <= 10000
  /\ N.min (500 + 200 * n) 2000 <= N.min (500 + 200 * m) 2000
  /\ N.min (500 + 200 * n) 2000 <= 2000.
Proof.
  intros Hnm; repeat split.
  - intros render s ev <-; unfold Page.onerror.
    destruct (Page.transient _); [destruct (_ <? 5)|]; reflexivity.
  - intros render s now <-; unfold Page.onend, Page.end_delay.
    destruct (Page.isRecording render); [|reflexivity].
    destruct (_ <? 30000)%Z; [|reflexivity].
    destruct (_ <? 5); cbv [andb]; [|reflexivity].
    rewrite (N.mul_comm 200); reflexivity.
  - pose proof (pow2_mono n m Hnm); lia.
  - lia.
  - lia.
  - lia.
Qed.

(** The session after a click on "녹음 시작" and [n] network errors in a
    row, as the page is wired: it is recording, its reconnect count is [n],
    and its last activity is the click. *)
Lemma errors_in_a_row_state (t0 : Z) (n : nat) :
  Page.isRecording (errors_in_a_row t0 n) = true
  /\ Page.reconnectAttempts (errors_in_a_row t0 n) = N.of_nat n
  /\ Page.lastActivity (errors_in_a_row t0 n) = t0.
Proof.
  induction n as [|n (Hrec & Hcount & Hact)]; [repeat split|].
  assert (E : errors_in_a_row t0 (S n)
              = fst (Page.onerror (Page.initial t0) network_error
                       (errors_in_a_row t0 n))).
  { unfold errors_in_a_row, Session.run.
    cbn [repeat]; rewrite repeat_cons, app_comm_cons, fold_left_app.
    reflexivity. }
  rewrite E; clear E; revert Hrec Hcount Hact.
  generalize (errors_in_a_row t0 n) as s; intros s Hrec Hcount Hact.
  repeat split; [exact Hrec | | exact Hact].
  cbn; rewrite Hcount; lia.
Qed.

(** C4. On the page as it is wired the delays are no function of the
    reconnect count. After a click on "녹음 시작" and [n + 1] network errors
    in a row the session is recording and its count is [n + 1]; the next
    network error sets the retry timer with a delay of 1000 ms, where
    min(1000 * 2^(n+1), 10000) is more than 1000; and an end of the
    recognition at that moment sets no timer at all, although the session is
    recording and the last activity is less than 30 s old. The handlers are
    those of the first render and read its count, 0, and its recording flag,
    false: whatever the state and the event, a transient error gives the
    delay 1000 and an end of the recognition gives no timer. *)
Theorem retry_delay_C4 (t0 : Z) (n : nat) :
  Page.isRecording (errors_in_a_row t0 (S n)) = true
  /\ Page.reconnectAttempts (errors_in_a_row t0 (S n)) = N.of_nat (S n)
  /\ snd (Page.onerror (Page.initial t0) network_error
            (errors_in_a_row t0 (S n))) = Some 1000
  /\ 1000 < N.min (1000 * 2 ^ N.of_nat (S n)) 10000
  /\ (t0 - Page.lastActivity (errors_in_a_row t0 (S n)) < 30000)%Z
  /\ snd (Page.onend (Page.initial t0) t0 (errors_in_a_row t0 (S n))) = None
  /\ (forall (s : Page.State) (ev : Page.error_event),
         snd (Page.onerror (Page.initial t0) ev s)
         = if Page.transient (Page.code ev) then Some 1000 else None)
  /\ (forall (s : Page.State) (now : Z),
         snd (Page.onend (Page.initial t0) now s) = None).
Proof.
  destruct (errors_in_a_row_state t0 (S n)) as (Hrec & Hcount & Hact).
  split; [exact Hrec|]; split; [exact Hcount|].
  split; [reflexivity|].
  split.
  { assert (H : 2 ^ 1 <= 2 ^ N.of_nat (S n)) by (apply pow2_mono; lia).
    change (2 ^ 1) with 2 in H; lia. }
  split; [rewrite Hact; lia|].
  split; [reflexivity|].
  split; [|reflexivity].
  intros s ev; unfold Page.onerror; destruct (Page.transient _); reflexivity.
Qed.


(** C2. The handlers are the ones of the first render, [Page.initial t0]:
    there the reconnect count is 0 and the recording flag is false, whatever
    the current state. So a transient error always sets the retry timer, with
    the message "(1/5)" and without touching the recording flag, also when the
    current count is 5 or more; the timer's callback never restarts the
    recognition; and the end of a session never marks the session as
    stopped. *)
Theorem retry_after_fifth_C2 (t0 now : Z) :
  snd (Page.onerror (Page.initial t0) network_error (fifth now)) = Some 1000
  /\ Page.reconnectAttempts
       (fst (Page.onerror (Page.initial t0) network_error (fifth now))) = 6
  /\ Page.isRecording
       (fst (Page.onerror (Page.initial t0) network_error (fifth now))) = true
  /\ Page.error (fst (Page.onerror (Page.initial t0) network_error (fifth now)))
     = utf16 "연결 문제 발생, 재시도 중... (1/5)"
  /\ (forall s : Page.State, Page.retry (Page.initial t0) s = (s, false))
  /\ (forall (s : Page.State) (t : Z),
         Page.onend (Page.initial t0) t s = (Page.setIsListening false s, None)).
Proof.
  do 4 (split; [reflexivity|]).
  split; reflexivity.
Qed.

(** With the handlers of the first render, every transient error sets the
    retry timer, whatever the current count, and keeps the recording flag. *)
Lemma first_render_always_retries
  (t0 : Z) (s : Page.State) (ev : Page.error_event) :
  Page.transient (Page.code ev) = true ->
  snd (Page.onerror (Page.initial t0) ev s) = Some 1000
  /\ Page.reconnectAttempts (fst (Page.onerror (Page.initial t0) ev s))
     = Page.reconnectAttempts s + 1
  /\ Page.isRecording (fst (Page.onerror (Page.initial t0) ev s))
     = Page.isRecording s.
Proof.
  intros H; unfold Page.onerror; rewrite H; repeat split.
Qed.

(** The bound is not kept either when a handler reads the current state: a
    session end with a recent activity and a count below 5 sets the restart
    timer, and a restart that succeeds leaves the count, the recording flag
    and the activity time as they were, so the same happens at the next
    end. *)
Lemma restart_keeps_count (s : Page.State) (now : Z) :
  Page.isRecording s = true ->
  (now - Page.lastActivity s < 30000)%Z ->
  Page.reconnectAttempts s < 5 ->
  let ended := fst (Page.onend s now s) in
  let restarted := fst (Page.restart ended false ended) in
  snd (Page.onend s now s) = Some (Page.end_delay (Page.reconnectAttempts s))
  /\ snd (Page.restart ended false ended) = true
  /\ Page.isRecording restarted = true
  /\ Page.reconnectAttempts restarted = Page.reconnectAttempts s
  /\ Page.lastActivity restarted = Page.lastActivity s.
Proof.
  intros Hrec Hact Hcount; unfold Page.onend, Page.restart.
  apply Z.ltb_lt in Hact; apply N.ltb_lt in Hcount.
  rewrite Hrec, Hact, Hcount; simpl; rewrite Hrec.
  repeat split; exact Hrec.
Qed.

(** * Keywords: lemmas on splitting and cleaning *)

Lemma split_collapse (insep : bool) (cur s : jsstring) :
  split_go is_space insep cur (collapse_go insep s)
  = split_go is_space insep cur s.
Proof.
  revert insep cur; induction s as [|c s IH]; intros insep cur; simpl.
  - reflexivity.
  - destruct (is_space c) eqn:E.
    + destruct insep; simpl; [apply IH|].
      change (is_space 32) with true; cbv iota. rewrite IH; reflexivity.
    + simpl; rewrite E; apply IH.
Qed.

Lemma split_after_space (s : jsstring) :
  filter nonempty (split_go is_space true [] s)
  = filter nonempty (split_go is_space false [] s).
Proof.
  destruct s as [|c s]; simpl; [reflexivity|].
  destruct (is_space c); reflexivity.
Qed.

Lemma split_trimStart (s : jsstring) :
  filter nonempty (split_runs is_space (trimStart s))
  = filter nonempty (split_runs is_space s).
Proof.
  unfold split_runs; induction s as [|c s IH]; [reflexivity|].
  simpl; destruct (is_space c) eqn:E; [|simpl; rewrite E; reflexivity].
  simpl; rewrite split_after_space; exact IH.
Qed.

Lemma split_blank (insep : bool) (cur sp : jsstring) :
  forallb is_space sp = true ->
  filter nonempty (split_go is_space insep cur sp)
  = filter nonempty [rev cur].
Proof.
  revert insep cur; induction sp as [|c sp IH]; intros insep cur H.
  - reflexivity.
  - simpl in H; apply andb_true_iff in H as [Hc Hsp].
    simpl; rewrite Hc; destruct insep.
    + apply IH; exact Hsp.
    + simpl; rewrite (IH true [] Hsp); simpl.
      destruct (nonempty (rev cur)); reflexivity.
Qed.

Lemma split_trailing (insep : bool) (cur t sp : jsstring) :
  forallb is_space sp = true ->
  filter nonempty (split_go is_space insep cur (t ++ sp))
  = filter nonempty (split_go is_space insep cur t).
Proof.
  intros H; revert insep cur; induction t as [|c t IH]; intros insep cur.
  - apply split_blank; exact H.
  - simpl; destruct (is_space c); [destruct insep|]; simpl; rewrite ?IH;
      reflexivity.
Qed.

Lemma trimStart_decompose (s : jsstring) :
  exists pre, s = pre ++ trimStart s /\ forallb is_space pre = true.
Proof.
  induction s as [|c s (pre & E & H)]; [exists []; split; reflexivity|].
  simpl; destruct (is_space c) eqn:Ec.
  - exists (c :: pre); split; [simpl; congruence | simpl; rewrite Ec; exact H].
  - exists []; split; reflexivity.
Qed.

Lemma forallb_rev {A} (f : A -> bool) (l : list A) :
  forallb f l = true -> forallb f (rev l) = true.
Proof.
  rewrite !forallb_forall; intros H x Hx; apply H, in_rev, Hx.
Qed.

Lemma split_trim (s : jsstring) :
  filter nonempty (split_runs is_space (trim s))
  = filter nonempty (split_runs is_space s).
Proof.
  rewrite <- (split_trimStart s); unfold trim.
  destruct (trimStart_decompose (rev (trimStart s))) as (pre & E & H).
  apply (f_equal (@rev N)) in E; rewrite rev_involutive, rev_app_distr in E.
  rewrite E at 2; unfold split_runs.
  rewrite split_trailing by (apply forallb_rev, H); reflexivity.
Qed.

Lemma significant_nonempty (w : jsstring) :
  Spec.significant w = true -> nonempty w = true.
Proof. destruct w; [discriminate | reflexivity]. Qed.

Lemma filter_significant (l : list jsstring) :
  filter Spec.significant (filter nonempty l) = filter Spec.significant l.
Proof.
  induction l as [|w l IH]; [reflexivity|]; simpl.
  destruct (nonempty w) eqn:E; simpl; rewrite IH; [reflexivity|].
  destruct (Spec.significant w) eqn:S; [|reflexivity].
  rewrite (significant_nonempty w S) in E; discriminate E.
Qed.

Lemma strip_no_marker (s : jsstring) :
  occurrences provisional s = 0%nat -> strip_provisional s = s.
Proof.
  unfold strip_provisional; induction s as [|c s IH]; [reflexivity|].
  intros H; cbn [occurrences] in H; cbn [strip_go andb].
  destruct (starts_with provisional (c :: s)); [discriminate H|].
  rewrite IH by exact H; reflexivity.
Qed.

(** The tokens [extractKeywords] counts, for a text without marker. *)
Lemma words_significant (text : jsstring) :
  occurrences provisional text = 0%nat ->
  filter Spec.significant (words text)
  = filter Spec.significant (Spec.tokens_blanked text).
Proof.
  intros H; unfold words, cleanText, Spec.tokens_blanked.
  rewrite (strip_no_marker text H).
  rewrite <- filter_significant, split_trim; unfold split_runs, collapse_spaces.
  rewrite split_collapse, filter_significant; reflexivity.
Qed.

(** * Keywords: the frequency object *)

Lemma own_app (o : object) (k k' : jsstring) (v : jsvalue) :
  own (o ++ [(k, v)]) k'
  = match own o k' with
    | Some x => Some x
    | None => if str_eqb k' k then Some v else None
    end.
Proof.
  induction o as [|[k0 v0] o IH]; simpl; [reflexivity|].
  destruct (str_eqb k' k0); [reflexivity | exact IH].
Qed.

Lemma own_update (o : object) (k k' : jsstring) (v : jsvalue) :
  own (update o k v) k'
  = if str_eqb k' k then option_map (fun _ => v) (own o k') else own o k'.
Proof.
  induction o as [|[k0 v0] o IH]; simpl.
  - destruct (str_eqb k' k); reflexivity.
  - destruct (str_eqb k k0) eqn:E; simpl.
    + apply str_eqb_eq in E; subst k0.
      destruct (str_eqb k' k); reflexivity.
    + destruct (str_eqb k' k0) eqn:E'.
      * apply str_eqb_eq in E'; subst k0.
        destruct (str_eqb k' k) eqn:E''; [|reflexivity].
        apply str_eqb_eq in E''; subst k'; rewrite str_eqb_refl in E.
        discriminate E.
      * exact IH.
Qed.

Lemma keys_update (o : object) (k : jsstring) (v : jsvalue) :
  map fst (update o k v) = map fst o.
Proof.
  induction o as [|[k0 v0] o IH]; simpl; [reflexivity|].
  destruct (str_eqb k k0); simpl; [reflexivity | rewrite IH; reflexivity].
Qed.

Lemma own_None (o : object) (k : jsstring) :
  own o k = None <-> ~ In k (map fst o).
Proof.
  induction o as [|[k0 v0] o IH]; simpl; [tauto|].
  destruct (str_eqb k k0) eqn:E.
  - apply str_eqb_eq in E; subst; split; [discriminate | tauto].
  - apply str_eqb_neq in E; rewrite IH; split; [intros H [H'|H']|]; try tauto.
    congruence.
Qed.

Lemma own_In (o : object) (k : jsstring) (v : jsvalue) :
  NoDup (map fst o) -> (In (k, v) o <-> own o k = Some v).
Proof.
  induction o as [|[k0 v0] o IH]; simpl; intros ND.
  - split; [tauto | discriminate].
  - inversion ND as [|? ? Hk0 ND']; subst.
    destruct (str_eqb k k0) eqn:E.
    + apply str_eqb_eq in E; subst k0; split.
      * intros [[= ->] | H]; [reflexivity|].
        exfalso; apply Hk0, (in_map fst _ _ H).
      * intros [= ->]; left; reflexivity.
    + apply str_eqb_neq in E; rewrite <- (IH ND'); split.
      * intros [[= <- <-] | H]; [congruence | exact H].
      * intros H; right; exact H.
Qed.

Lemma count_app (seen : list jsstring) (w k : jsstring) :
  Spec.count (seen ++ [w]) k
  = (Spec.count seen k + if str_eqb k w then 1 else 0)%nat.
Proof.
  unfold Spec.count; rewrite filter_app, length_app; simpl.
  destruct (str_eqb k w); reflexivity.
Qed.

Lemma wordFreq_app (seen : list jsstring) (w : jsstring) :
  wordFreq (seen ++ [w])
  = if Spec.significant w then tally (wordFreq seen) w else wordFreq seen.
Proof. unfold wordFreq; rewrite fold_left_app; reflexivity. Qed.

Lemma wordFreq_keys (seen : list jsstring) : NoDup (map fst (wordFreq seen)).
Proof.
  induction seen as [|w seen IH] using rev_ind; [constructor|].
  rewrite wordFreq_app; destruct (Spec.significant w); [|exact IH].
  unfold tally; destruct (own (wordFreq seen) w) eqn:E.
  - rewrite keys_update; exact IH.
  - apply own_None in E.
    assert (ND : forall v, NoDup (map fst (wordFreq seen ++ [(w, v)]))).
    { intros v; rewrite map_app; simpl.
      apply NoDup_app; [exact IH | repeat constructor; simpl; tauto |].
      intros a Ha [<- | []]; exact (E Ha). }
    destruct (str_eqb w proto_accessor); [exact IH|].
    destruct (has inherited w); apply ND.
Qed.

Arguments has : simpl never.
Arguments Spec.significant : simpl never.

Lemma own_wordFreq (seen : list jsstring) (k : jsstring) :
  own (wordFreq seen) k = expected seen k.
Proof.
  revert k; induction seen as [|w seen IH] using rev_ind; intros k.
  - unfold expected; simpl.
    rewrite orb_true_r; reflexivity.
  - rewrite wordFreq_app.
    assert (other : str_eqb k w = false ->
                    expected (seen ++ [w]) k = expected seen k).
    { intros E; unfold expected; rewrite count_app, E, Nat.add_0_r.
      reflexivity. }
    destruct (Spec.significant w) eqn:Sw.
    + unfold tally; destruct (own (wordFreq seen) w) as [v|] eqn:Ow.
      * rewrite own_update; destruct (str_eqb k w) eqn:E.
        -- apply str_eqb_eq in E; subst k; rewrite Ow; simpl.
           rewrite IH in Ow; revert Ow; unfold expected.
           rewrite count_app, str_eqb_refl, Sw; simpl.
           destruct (Spec.count seen w =? 0)%nat eqn:C; [discriminate|].
           replace (Spec.count seen w + 1 =? 0)%nat with false
             by (symmetry; apply Nat.eqb_neq; lia).
           simpl; destruct (str_eqb w proto_accessor); [discriminate|].
           destruct (has inherited w); intros [= Hv]; subst v; simpl;
             [reflexivity|].
           do 2 f_equal; lia.
        -- rewrite IH, other by reflexivity; reflexivity.
      * assert (fresh : Spec.count seen w = 0%nat
                        \/ str_eqb w proto_accessor = true).
        { rewrite IH in Ow; revert Ow; unfold expected; rewrite Sw; simpl.
          destruct (Spec.count seen w =? 0)%nat eqn:C;
            [apply Nat.eqb_eq in C; auto|].
          destruct (str_eqb w proto_accessor); [auto|].
          destruct (has inherited w); discriminate. }
        destruct (str_eqb w proto_accessor) eqn:Pw.
        -- destruct (str_eqb k w) eqn:E; [|rewrite IH, other by reflexivity; reflexivity].
           apply str_eqb_eq in E; subst k; rewrite Ow.
           unfold expected; rewrite Pw, orb_true_r; reflexivity.
        -- destruct fresh as [C | ?]; [|discriminate].
           assert (added : forall v,
                      (if has inherited w then Some NotNumeric
                       else Some (Count 1)) = Some v ->
                      own (wordFreq seen ++ [(w, v)]) k
                      = expected (seen ++ [w]) k).
           { intros v Hv; rewrite own_app; destruct (str_eqb k w) eqn:E.
             - apply str_eqb_eq in E; subst k; rewrite Ow, <- Hv.
               unfold expected.
               rewrite count_app, str_eqb_refl, Sw, Pw, C; reflexivity.
             - rewrite IH, other by reflexivity.
               destruct (expected seen k); reflexivity. }
           destruct (has inherited w); apply added; reflexivity.
    + destruct (str_eqb k w) eqn:E; [|rewrite IH, other by reflexivity; reflexivity].
      apply str_eqb_eq in E; subst k; rewrite IH; unfold expected.
      rewrite Sw; reflexivity.
Qed.

(** * Sorting: facts *)

Section SortFacts.
Context {A : Type} (after : A -> A -> bool).

Lemma insert_perm (x : A) (l : list A) : Permutation (insert after x l) (x :: l).
Proof.
  induction l as [|y l IH]; simpl; [reflexivity|].
  destruct (after x y); [|reflexivity].
  rewrite IH; apply perm_swap.
Qed.

Lemma Array_sort_perm (l : list A) : Permutation (Array_sort after l) l.
Proof.
  induction l as [|x l IH]; simpl; [reflexivity|].
  rewrite insert_perm, IH; reflexivity.
Qed.

Variable P : A -> Prop.
Variable le : A -> A -> Prop.
Hypothesis le_trans : forall a b c, le a b -> le b c -> le a c.
Hypothesis after_true : forall a b, P a -> P b -> after a b = true -> le b a.
Hypothesis after_false : forall a b, P a -> P b -> after a b = false -> le a b.

Lemma insert_sorted (x : A) (l : list A) :
  P x -> Forall P l -> StronglySorted le l ->
  StronglySorted le (insert after x l).
Proof.
  intros Px; induction l as [|y l IH]; intros Pl Sl; simpl.
  - repeat constructor.
  - inversion Pl as [|? ? Py Pl']; inversion Sl as [|? ? Sl' Hy]; subst.
    destruct (after x y) eqn:E.
    + constructor; [apply IH; assumption|].
      apply (Permutation_Forall (Permutation_sym (insert_perm x l))).
      constructor; [apply after_true; assumption | exact Hy].
    + pose proof (after_false x y Px Py E) as Hxy.
      constructor; [exact Sl|].
      constructor; [exact Hxy|].
      revert Hy; apply Forall_impl; intros z; apply le_trans, Hxy.
Qed.

Lemma Array_sort_sorted (l : list A) :
  Forall P l -> StronglySorted le (Array_sort after l).
Proof.
  induction l as [|x l IH]; intros Pl; simpl; [constructor|].
  inversion Pl; subst; apply insert_sorted; auto.
  apply (Permutation_Forall (Permutation_sym (Array_sort_perm l))); assumption.
Qed.

End SortFacts.

Lemma filter_partition_perm {A} (f : A -> bool) (l : list A) :
  Permutation (filter f l ++ filter (fun x => negb (f x)) l) l.
Proof.
  induction l as [|x l IH]; simpl; [reflexivity|].
  destruct (f x); simpl.
  - constructor; exact IH.
  - rewrite <- Permutation_middle; constructor; exact IH.
Qed.

Lemma Object_entries_perm (o : object) : Permutation (Object_entries o) o.
Proof.
  unfold Object_entries; rewrite Array_sort_perm; apply filter_partition_perm.
Qed.

Lemma StronglySorted_map {A B} (R : A -> A -> Prop) (R' : B -> B -> Prop)
  (Q : A -> Prop) (f : A -> B) (l : list A) :
  (forall a b, Q a -> Q b -> R a b -> R' (f a) (f b)) ->
  Forall Q l -> StronglySorted R l -> StronglySorted R' (map f l).
Proof.
  intros H; induction l as [|x l IH]; intros Ql Sl; simpl; [constructor|].
  inversion Ql as [|? ? Qx Ql']; inversion Sl as [|? ? Sl' Hx]; subst.
  constructor; [apply IH; assumption|].
  apply Forall_map; rewrite Forall_forall in *.
  intros y Hy; apply H; auto.
Qed.

Lemma NoDup_firstn {A} (n : nat) (l : list A) : NoDup l -> NoDup (firstn n l).
Proof.
  intros H; rewrite <- (firstn_skipn n l) in H.
  exact (NoDup_app_remove_r _ _ H).
Qed.

Lemma In_firstn {A} (n : nat) (l : list A) (x : A) : In x (firstn n l) -> In x l.
Proof.
  intros H; rewrite <- (firstn_skipn n l); apply in_or_app; left; exact H.
Qed.

(** * Keywords: theorems *)

Lemma count_In (seen : list jsstring) (w : jsstring) :
  Spec.count seen w <> 0%nat <-> In w seen.
Proof.
  unfold Spec.count; induction seen as [|x seen IH]; simpl; [tauto|].
  destruct (str_eqb w x) eqn:E; simpl.
  - apply str_eqb_eq in E; subst; split; [auto | discriminate].
  - apply str_eqb_neq in E; rewrite IH; split; [auto|].
    intros [H | H]; [congruence | exact H].
Qed.

Lemma count_filter (seen : list jsstring) (k : jsstring) :
  Spec.significant k = true ->
  Spec.count (filter Spec.significant seen) k = Spec.count seen k.
Proof.
  intros Sk; unfold Spec.count; induction seen as [|x seen IH]; simpl;
    [reflexivity|].
  destruct (Spec.significant x) eqn:Sx; simpl.
  - destruct (str_eqb k x); simpl; rewrite IH; reflexivity.
  - destruct (str_eqb k x) eqn:E; [|exact IH].
    apply str_eqb_eq in E; subst; congruence.
Qed.

(** What a key of the frequency object is. *)
Lemma wordFreq_key (seen : list jsstring) (k : jsstring) :
  In k (map fst (wordFreq seen)) <->
  Spec.significant k = true /\ In k seen /\ k <> proto_accessor.
Proof.
  split.
  - intros H; destruct (own (wordFreq seen) k) eqn:E;
      [|apply own_None in E; contradiction].
    rewrite own_wordFreq in E; unfold expected in E.
    destruct (Spec.significant k); [|discriminate].
    destruct (Spec.count seen k =? 0)%nat eqn:C; [discriminate|].
    destruct (str_eqb k proto_accessor) eqn:Pk; [discriminate|].
    apply Nat.eqb_neq, count_In in C; apply str_eqb_neq in Pk; auto.
  - intros (S & C & Pk).
    apply count_In in C; apply str_eqb_neq in Pk.
    destruct (own (wordFreq seen) k) eqn:H;
      [apply (own_In _ _ _ (wordFreq_keys seen)) in H;
       exact (in_map fst _ _ H)|].
    rewrite own_wordFreq in H; unfold expected in H.
    apply Nat.eqb_neq in C; rewrite S, C, Pk in H; simpl in H.
    destruct (has inherited k); discriminate.
Qed.

(** What the object holds under a key that is no inherited name. *)
Lemma wordFreq_value (seen : list jsstring) (k : jsstring) (v : jsvalue) :
  In (k, v) (wordFreq seen) -> has inherited k = false ->
  v = Count (N.of_nat (Spec.count seen k)).
Proof.
  intros H Hk; apply (own_In _ _ _ (wordFreq_keys seen)) in H.
  rewrite own_wordFreq in H; unfold expected in H; rewrite Hk in H.
  destruct (_ || _); congruence.
Qed.


Lemma sorted_entries_perm (text : jsstring) :
  Permutation (sorted_entries text) (wordFreq (words text)).
Proof.
  unfold sorted_entries; rewrite Array_sort_perm; apply Object_entries_perm.
Qed.

Lemma extractKeywords_firstn (text : jsstring) :
  extractKeywords text = firstn 8 (map fst (sorted_entries text)).
Proof. unfold extractKeywords; rewrite firstn_map; reflexivity. Qed.

Lemma sorted_keys (text : jsstring) (k : jsstring) :
  In k (map fst (sorted_entries text)) <->
  Spec.significant k = true /\ In k (words text) /\ k <> proto_accessor.
Proof.
  rewrite <- wordFreq_key; split; apply Permutation_in, Permutation_map;
    [|symmetry]; apply sorted_entries_perm.
Qed.

Lemma sorted_keys_NoDup (text : jsstring) : NoDup (map fst (sorted_entries text)).
Proof.
  apply (Permutation_NoDup
           (Permutation_map fst (Permutation_sym (sorted_entries_perm text)))).
  apply wordFreq_keys.
Qed.

(** C3, as stated: the result is the top 8 of the tokens that are left when
    the provisional segment and the characters other than word characters
    and white space are removed. It fails on "안녕,하세요": the comma is
    replaced by a space, not removed, so it separates two tokens. *)
Lemma extractKeywords_C3_fails :
  ~ (forall text : jsstring,
        Spec.top8 (filter Spec.significant (Spec.tokens text))
                  (extractKeywords text)).
Proof.
  intros H; destruct (H (utf16 "안녕,하세요")) as (l & (_ & Hin & _) & E).
  assert (Hw : In (utf16 "안녕") l).
  { apply (In_firstn 8); rewrite <- E; vm_compute; auto. }
  apply Hin in Hw; vm_compute in Hw.
  destruct Hw as [Hw | []]; discriminate Hw.
Qed.

Lemma plain_token (ws : list jsstring) (w : jsstring) :
  Spec.plain ws = true -> In w ws ->
  has inherited w = false /\ w <> proto_accessor.
Proof.
  unfold Spec.plain; rewrite forallb_forall; intros H Hw.
  specialize (H w Hw); apply andb_true_iff in H as [H1 H2].
  apply negb_true_iff in H1, H2; apply str_eqb_neq in H2; auto.
Qed.

(** Outside the two side conditions of the amended statement the result
    differs from it: the marker is removed together with the characters
    attached to it, and a token such as [__proto__] never becomes a key of
    the frequency object. *)
Lemma extractKeywords_outside_conditions :
  extractKeywords (utf16 "[임시]발표자 소개") = [utf16 "소개"]
  /\ filter Spec.significant (Spec.tokens_blanked (utf16 "[임시]발표자 소개"))
     = [utf16 "발표자"; utf16 "소개"]
  /\ extractKeywords (utf16 "__proto__ __proto__") = []
  /\ filter Spec.significant (Spec.tokens_blanked (utf16 "__proto__ __proto__"))
     = [utf16 "__proto__"; utf16 "__proto__"].
Proof. repeat split; vm_compute; reflexivity. Qed.

(** C3, amended. For every text the result has no duplicates, holds only
    tokens of the text that are at least 2 code units long and no stop-words,
    and has at most 8 elements. For a text without provisional marker, whose
    tokens name no property of [Object.prototype], the result is exactly: the
    text with every character other than word characters and white space
    replaced by a space, split on white space, without the tokens shorter than
    2 and the stop-words, each remaining token once, a token never after one
    that occurs less often, cut to the first 8. *)
Theorem extractKeywords_C3 (text : jsstring) :
  (NoDup (extractKeywords text)
   /\ (forall w, In w (extractKeywords text) ->
                 2 <= strlen w /\ has stopWords w = false /\ In w (words text))
   /\ (List.length (extractKeywords text) <= 8)%nat)
  /\ (occurrences provisional text = 0%nat ->
      Spec.plain (filter Spec.significant (Spec.tokens_blanked text)) = true ->
      Spec.top8 (filter Spec.significant (Spec.tokens_blanked text))
                (extractKeywords text)).
Proof.
  rewrite extractKeywords_firstn; split; [split; [|split]|].
  - apply NoDup_firstn, sorted_keys_NoDup.
  - intros w Hw; apply In_firstn, sorted_keys in Hw.
    destruct Hw as (S & Hw & _); unfold Spec.significant in S.
    apply andb_true_iff in S as [S1 S2].
    apply N.leb_le in S1; apply negb_true_iff in S2; auto.
  - apply firstn_le_length.
  - intros Hmarker; rewrite <- (words_significant text Hmarker); intros Hplain.
    set (ws := filter Spec.significant (words text)) in *.
    assert (Hws : forall k, In k ws <->
                            Spec.significant k = true /\ In k (words text)).
    { intros k; unfold ws; rewrite filter_In; tauto. }
    exists (map fst (sorted_entries text)); split; [|reflexivity].
    split; [apply sorted_keys_NoDup|split].
    + intros w; split; intros Hw.
      * apply sorted_keys in Hw; apply Hws; tauto.
      * apply sorted_keys; pose proof (plain_token ws w Hplain Hw).
        apply Hws in Hw; tauto.
    + assert (Hval : Forall
                (fun e => snd e = Count (N.of_nat (Spec.count ws (fst e))))
                (sorted_entries text)).
      { apply Forall_forall; intros [k v] Hkv; simpl.
        assert (Hk : In k (map fst (sorted_entries text)))
          by exact (in_map fst _ _ Hkv).
        apply sorted_keys in Hk; destruct Hk as (S & Hk & _).
        unfold ws; rewrite count_filter by exact S.
        apply wordFreq_value.
        - apply (Permutation_in _ (sorted_entries_perm text)), Hkv.
        - apply (plain_token ws k Hplain), Hws; auto. }
      pose (value := fun e : jsstring * jsvalue =>
                       match snd e with Count n => n | NotNumeric => 0 end).
      apply (StronglySorted_map (fun a b => value b <= value a) _
               (fun e => snd e = Count (N.of_nat (Spec.count ws (fst e)))) fst);
        [unfold value; intros a b Ha Hb; rewrite Ha, Hb; lia | exact Hval |].
      unfold sorted_entries.
      apply (Array_sort_sorted count_after (fun e => exists n, snd e = Count n)).
      * intros a b c; lia.
      * intros a b [x Ha] [y Hb]; unfold count_after, value.
        rewrite Ha, Hb; intros H; apply N.ltb_lt in H; lia.
      * intros a b [x Ha] [y Hb]; unfold count_after, value.
        rewrite Ha, Hb; intros H; apply N.ltb_ge in H; lia.
      * apply (Permutation_Forall (Array_sort_perm count_after _)).
        revert Hval; apply Forall_impl; intros e He; eauto.
Qed.

Lemma extractKeywords_C3_witness :
  Spec.top8
    (filter Spec.significant (Spec.tokens_blanked (utf16 "일정, 회의 일정!")))
    (extractKeywords (utf16 "일정, 회의 일정!")).
Proof.
  apply (proj2 (extractKeywords_C3 (utf16 "일정, 회의 일정!")));
    vm_compute; reflexivity.
Defined.

(** * Numbers: facts *)

Section Rounding.
Local Open Scope Q_scope.

Lemma pow2_pos (e : Z) : 0 < Double.pow2 e.
Proof. apply Qpower_0_lt; reflexivity. Qed.

Lemma nearest_even_lower (x : Q) : x - (1 # 2) <= inject_Z (Double.nearest_even x).
Proof.
  unfold Double.nearest_even.
  pose proof (Qfloor_le x) as Hlo; pose proof (Qlt_floor x) as Hhi.
  rewrite inject_Z_plus in Hhi.
  destruct (Qcompare (x - inject_Z (Qfloor x)) (1 # 2)) eqn:C.
  - apply Qeq_alt in C.
    destruct (Z.even (Qfloor x)); [|rewrite inject_Z_plus]; lra.
  - apply Qlt_alt in C; lra.
  - rewrite inject_Z_plus; lra.
Qed.

Lemma exponent_lower (q : Q) : 1 <= q -> Double.pow2 (Double.exponent q) <= q.
Proof.
  intros Hq; unfold Double.exponent.
  set (f := Qfloor (q * Double.pow2 1100)).
  assert (Hf : (1 <= f)%Z).
  { change 1%Z with (Qfloor 1); apply Qfloor_resp_le.
    pose proof (pow2_pos 1100).
    assert (1 <= Double.pow2 1100) by (vm_compute; discriminate).
    nra. }
  pose proof (Z.log2_spec f ltac:(lia)) as [Hlog _].
  pose proof (Z.log2_nonneg f) as Hnn.
  assert (Hfq : inject_Z f <= q * Double.pow2 1100) by apply Qfloor_le.
  assert (Hp : inject_Z (2 ^ Z.log2 f) <= inject_Z f) by (rewrite <- Zle_Qle; exact Hlog).
  rewrite Zpower_Qpower in Hp by exact Hnn.
  unfold Double.pow2 in *.
  unfold Z.sub; rewrite Qpower_plus by discriminate.
  rewrite Qpower_opp.
  change (inject_Z 2) with 2 in Hp.
  pose proof (pow2_pos 1100) as H1100; unfold Double.pow2 in H1100.
  apply Qle_shift_div_r; [exact H1100|].
  lra.
Qed.

Lemma round_lower (q : Q) :
  1 <= q -> q - q * (1 # 9007199254740992) <= Double.round q.
Proof.
  intros Hq; unfold Double.round.
  destruct (Qle_bool q 0) eqn:E; [apply Qle_bool_iff in E; lra|].
  set (ulp := Double.pow2 (Double.exponent q - 52)).
  assert (Hpos : 0 < ulp) by apply pow2_pos.
  assert (Hulp : ulp <= q * (1 # 4503599627370496)).
  { unfold ulp, Double.pow2, Z.sub; rewrite Qpower_plus by discriminate.
    pose proof (exponent_lower q Hq) as H; unfold Double.pow2 in H.
    change (2 ^ (- (52)))%Q with (1 # 4503599627370496).
    nra. }
  pose proof (nearest_even_lower (q / ulp)) as Hn.
  assert (Hdiv : q / ulp * ulp == q) by (field; lra).
  set (m := inject_Z (Double.nearest_even (q / ulp))) in *.
  assert (q - (1 # 2) * ulp <= m * ulp) by nra.
  lra.
Qed.

Lemma quota_lower (n : nat) :
  (4 <= n)%nat -> (N.of_nat n < 4294967296)%N ->
  (2 * n <= 5 * Summary.quota n)%nat.
Proof.
  intros Hn Hn'; unfold Summary.quota, Double.mul, Double.ceil, Double.of_N.
  set (c04 := Double.round (4 # 10)).
  assert (Hc : 4 # 10 <= c04) by (vm_compute; discriminate).
  rewrite nat_N_Z.
  set (z := Z.of_nat n).
  assert (Hz : (4 <= z < 4294967296)%Z) by lia.
  assert (Hz1 : 4 <= inject_Z z) by (change 4 with (inject_Z 4); rewrite <- Zle_Qle; lia).
  assert (Hz2 : inject_Z z <= 4294967296)
    by (change 4294967296 with (inject_Z 4294967296); rewrite <- Zle_Qle; lia).
  set (q := inject_Z z * c04).
  assert (Hq : 1 <= q) by (unfold q; nra).
  pose proof (round_lower q Hq) as Hr.
  pose proof (Qle_ceiling (Double.round q)) as Hceil.
  set (c := Qceiling (Double.round q)) in *.
  assert (Hlt : inject_Z (2 * z) < inject_Z (5 * c + 1)).
  { rewrite inject_Z_plus, !inject_Z_mult.
    change (inject_Z 5) with 5; change (inject_Z 2) with 2; change (inject_Z 1) with 1.
    unfold q in *; nra. }
  rewrite <- Zlt_Qlt in Hlt.
  lia.
Qed.

End Rounding.

(** The model of rounding agrees with the hardware on the products
    [n * 0.4] for every [n] below 300 and on the scores [k + len / 100] for
    every [k] up to 8 and [len] below 120. *)
Example double_agrees_with_binary64 :
  forallb Binary64.agree_product (Binary64.upto 300) = true
  /\ forallb (fun k => forallb (Binary64.agree_score k) (Binary64.upto 120))
             (Binary64.upto 9) = true.
Proof. split; vm_compute; reflexivity. Qed.

(** * The extractive fallback: theorems *)

Import Summary.
Local Open Scope Q_scope.


Lemma score_sorted (l : list scored) :
  StronglySorted (fun a b => score b <= score a) (Array_sort score_after l).
Proof.
  apply (Array_sort_sorted score_after (fun _ => True)).
  - intros a b c Hab Hbc; exact (Qle_trans _ _ _ Hbc Hab).
  - intros a b _ _ H; unfold score_after, Double.ltb in H.
    apply negb_true_iff in H.
    destruct (Qlt_le_dec (score a) (score b)) as [Hlt | Hle];
      [apply Qlt_le_weak, Hlt|].
    apply Qle_bool_iff in Hle; congruence.
  - intros a b _ _ H; unfold score_after, Double.ltb in H.
    apply negb_false_iff, Qle_bool_iff in H; exact H.
  - apply Forall_forall; trivial.
Qed.

(** C10. A text with at most 3 sentences (the pieces between runs of ".",
    "!" and "?" whose trimmed length exceeds 10) is returned as it is. A text
    with [n > 3] sentences gives the sentences [chosen], trimmed, joined by
    ". " and closed by ".": [chosen] is an initial part of the sentences
    ordered by descending score, and it has at least 2, at least
    [0.4 * n] (so at least the ceiling of it) and at most [n] elements. (An
    array has fewer than 2^32 elements.) *)
Theorem createExtractiveSummary_C10 (text : jsstring) :
  ((List.length (sentences text) <= 3)%nat ->
   createExtractiveSummary text = text)
  /\ ((3 < List.length (sentences text))%nat ->
      (N.of_nat (List.length (sentences text)) < 4294967296)%N ->
      exists chosen rest : list scored,
        createExtractiveSummary text
        = (join period_space (map sentence chosen) ++ period)%list
        /\ Permutation (chosen ++ rest)
             (map (fun s => {| sentence := trim s;
                               score := score_of (extractKeywords text) s |})
                  (sentences text))
        /\ StronglySorted (fun a b => score b <= score a) (chosen ++ rest)
        /\ (2 <= List.length chosen)%nat
        /\ (2 * List.length (sentences text) <= 5 * List.length chosen)%nat
        /\ (List.length chosen <= List.length (sentences text))%nat).
Proof.
  unfold createExtractiveSummary; split.
  - intros H; apply Nat.leb_le in H; rewrite H; reflexivity.
  - intros H Hmax; pose proof H as H'; apply Nat.leb_gt in H'; rewrite H'.
    set (n := List.length (sentences text)) in *.
    set (scoredSentences :=
           map (fun s => {| sentence := trim s;
                            score := score_of (extractKeywords text) s |})
               (sentences text)).
    set (sorted := Array_sort score_after scoredSentences).
    assert (Hlen : List.length sorted = n).
    { unfold sorted; rewrite (Permutation_length (Array_sort_perm _ _)).
      unfold scoredSentences; rewrite length_map; reflexivity. }
    exists (firstn (quota n) sorted), (skipn (quota n) sorted).
    rewrite firstn_skipn, length_firstn, Hlen.
    pose proof (quota_lower n ltac:(lia) Hmax) as Hq.
    assert (Hq2 : (2 <= quota n)%nat) by (unfold quota; lia).
    repeat split.
    + apply Array_sort_perm.
    + apply score_sorted.
    + lia.
    + lia.
    + lia.
Qed.

Lemma createExtractiveSummary_C10_witness :
  exists chosen rest : list scored,
    createExtractiveSummary minutes
    = (join period_space (map sentence chosen) ++ period)%list
    /\ Permutation (chosen ++ rest)
         (map (fun s => {| sentence := trim s;
                           score := score_of (extractKeywords minutes) s |})
              (sentences minutes))
    /\ StronglySorted (fun a b => score b <= score a) (chosen ++ rest)
    /\ (2 <= List.length chosen)%nat
    /\ (2 * List.length (sentences minutes) <= 5 * List.length chosen)%nat
    /\ (List.length chosen <= List.length (sentences minutes))%nat.
Proof.
  apply (proj2 (createExtractiveSummary_C10 minutes)).
  - vm_compute; repeat constructor.
  - vm_compute; reflexivity.
Defined.

(** * The session: what every run keeps *)

Local Open Scope N_scope.

Lemma run_snoc (t0 : Z) (actions : list Session.action) (a : Session.action) :
  Session.run t0 (actions ++ [a]) = Session.step t0 a (Session.run t0 actions).
Proof. unfold Session.run; rewrite fold_left_app; reflexivity. Qed.

(** Every action but the volume monitor and the clean-up leaves the level
    and the environment status alone, and a [startRecording] that gets past
    its guard hands [monitorVolume] a render that is not recording. *)
Lemma step_meter (t0 : Z) (a : Session.action) (s : Page.State) :
  Page.micLevel s = 0 -> Page.environmentStatus s = Page.quiet ->
  Page.micLevel (Session.step t0 a s) = 0
  /\ Page.environmentStatus (Session.step t0 a s) = Page.quiet.
Proof.
  intros Hl He; destruct a; simpl.
  - auto.
  - unfold Page.onerror, Page.report.
    destruct (Page.transient _); [destruct (_ <? 5)|]; simpl;
      repeat match goal with |- context [if ?b then _ else _] => destruct b end;
      auto.
  - auto.
  - auto.
  - auto.
  - auto.
  - unfold Page.startRecording; simpl.
    destruct (Page.isRecording s) eqn:R; simpl; [auto|].
    unfold Page.setupMicrophoneMonitoring, Page.monitorVolume; rewrite R.
    destruct microphone as [[first others]|], throws; simpl; auto.
  - unfold Page.startRecording_begins; simpl.
    destruct (Page.isRecording s); simpl; auto.
  - destruct (Page.isRecording render) eqn:R; [auto|].
    unfold Page.startRecording_resumes, Page.setupMicrophoneMonitoring,
      Page.monitorVolume; rewrite R.
    destruct microphone as [[first others]|], throws; simpl; auto.
  - unfold Page.stopRecording; simpl.
    destruct (Page.isRecording s); simpl; auto.
  - unfold Page.summarizeText.
    destruct (is_empty _); [simpl; auto|].
    destruct summarizerRef as [m|]; [|simpl; auto].
    simpl; destruct (m _); simpl; auto.
  - auto.
  - auto.
  - unfold Page.activityCheck; simpl.
    repeat match goal with |- context [if ?b then _ else _] => destruct b end;
      simpl; auto.
  - unfold Page.activityRestart.
    destruct (Page.isRecording render), throws; simpl; auto.
  - unfold Page.initSummarizer; destruct first, second; simpl; auto.
Qed.

(** X1. As the page is wired, the microphone level is 0 and the environment
    status is "quiet" in every state the page can reach: the first call of
    [monitorVolume] reads the recording flag of the render in which the
    recording was started, where it is not set, and nothing else writes a
    level but the clean-up, which writes 0. *)
Theorem meter_never_moves (t0 : Z) (actions : list Session.action) :
  Page.micLevel (Session.run t0 actions) = 0
  /\ Page.environmentStatus (Session.run t0 actions) = Page.quiet.
Proof.
  induction actions as [|a actions IH] using rev_ind.
  - split; reflexivity.
  - rewrite run_snoc; destruct IH; apply step_meter; assumption.
Qed.

Lemma extractKeywords_keyword_list (text : jsstring) :
  keyword_list (extractKeywords text).
Proof.
  rewrite extractKeywords_firstn; repeat split.
  - apply NoDup_firstn, sorted_keys_NoDup.
  - apply firstn_le_length.
  - apply In_firstn, sorted_keys in H; destruct H as (S & _).
    unfold Spec.significant in S; apply andb_true_iff in S as [S _].
    apply N.leb_le; exact S.
  - apply In_firstn, sorted_keys in H; destruct H as (S & _).
    unfold Spec.significant in S; apply andb_true_iff in S as [_ S].
    apply negb_true_iff; exact S.
Qed.

Lemma step_keywords (t0 : Z) (a : Session.action) (s : Page.State) :
  keyword_list (Page.keywords s) ->
  keyword_list (Page.keywords (Session.step t0 a s)).
Proof.
  assert (Hnil : keyword_list []).
  { repeat split; [constructor | simpl; lia | destruct H | destruct H]. }
  intros H; destruct a; simpl; auto;
    unfold Page.onerror, Page.report, Page.onend, Page.restart,
      Page.startRecording, Page.startRecording_begins,
      Page.startRecording_resumes, Page.setupMicrophoneMonitoring,
      Page.monitorVolume, Page.stopRecording, Page.summarizeText,
      Page.activityCheck,
      Page.activityRestart, Page.initSummarizer;
    repeat match goal with
           | |- context [if ?b then _ else _] => destruct b
           | |- context [match ?x with _ => _ end] => destruct x
           end;
    simpl; auto using extractKeywords_keyword_list.
Qed.

(** X2. In every state the page can reach, the keyword list that is shown
    has no duplicates, at most 8 entries, no stop-word and no entry shorter
    than 2 code units: only [summarizeText] and [clearAll] write it. *)
Theorem keywords_always_wellformed (t0 : Z) (actions : list Session.action) :
  NoDup (Page.keywords (Session.run t0 actions))
  /\ (List.length (Page.keywords (Session.run t0 actions)) <= 8)%nat
  /\ (forall w, In w (Page.keywords (Session.run t0 actions)) ->
                2 <= strlen w /\ has stopWords w = false).
Proof.
  change (keyword_list (Page.keywords (Session.run t0 actions))).
  induction actions as [|a actions IH] using rev_ind.
  - repeat split; [constructor | simpl; lia | destruct H | destruct H].
  - rewrite run_snoc; apply step_keywords, IH.
Qed.

(** * Recording: theorems *)

(** X3. [stopRecording] calls [recognition.stop()] exactly when the browser
    supports recognition and the session is recording; it then leaves the
    session not recording and not listening, with the reconnect count, the
    level and the environment status reset. It never touches the transcript,
    the summary, the keywords or the error message, and a second stop right
    after does nothing and calls nothing. The same in the earlier revision,
    which has no reconnect count and no keywords: there too the session is
    left not recording and not listening, with the level and the environment
    status reset. *)
Theorem stopRecording_effect (supported : bool) (s : Page.State) (s1 : PageV1.State) :
  (snd (Page.stopRecording supported s)
   = (if supported && Page.isRecording s then [Page.Stop] else [])
   /\ Page.isRecording (fst (Page.stopRecording supported s))
      = Page.isRecording s && negb supported
   /\ (supported && Page.isRecording s = true ->
       Page.isListening (fst (Page.stopRecording supported s)) = false
       /\ Page.reconnectAttempts (fst (Page.stopRecording supported s)) = 0
       /\ Page.micLevel (fst (Page.stopRecording supported s)) = 0
       /\ Page.environmentStatus (fst (Page.stopRecording supported s))
          = Page.quiet)
   /\ (supported && Page.isRecording s = false ->
       fst (Page.stopRecording supported s) = s)
   /\ Page.transcription (fst (Page.stopRecording supported s))
      = Page.transcription s
   /\ Page.summary (fst (Page.stopRecording supported s)) = Page.summary s
   /\ Page.keywords (fst (Page.stopRecording supported s)) = Page.keywords s
   /\ Page.error (fst (Page.stopRecording supported s)) = Page.error s
   /\ Page.stopRecording true (fst (Page.stopRecording true s))
      = (fst (Page.stopRecording true s), []))
  /\ (snd (PageV1.stopRecording supported s1)
      = (if supported && PageV1.isRecording s1 then [Page.Stop] else [])
      /\ PageV1.isRecording (fst (PageV1.stopRecording supported s1))
         = PageV1.isRecording s1 && negb supported
      /\ (supported && PageV1.isRecording s1 = true ->
          PageV1.isListening (fst (PageV1.stopRecording supported s1)) = false
          /\ PageV1.micLevel (fst (PageV1.stopRecording supported s1)) = 0
          /\ PageV1.environmentStatus (fst (PageV1.stopRecording supported s1))
             = PageV1.quiet)
      /\ (supported && PageV1.isRecording s1 = false ->
          fst (PageV1.stopRecording supported s1) = s1)
      /\ PageV1.transcription (fst (PageV1.stopRecording supported s1))
         = PageV1.transcription s1
      /\ PageV1.summary (fst (PageV1.stopRecording supported s1))
         = PageV1.summary s1
      /\ PageV1.error (fst (PageV1.stopRecording supported s1))
         = PageV1.error s1
      /\ PageV1.stopRecording true (fst (PageV1.stopRecording true s1))
         = (fst (PageV1.stopRecording true s1), [])).
Proof.
  unfold Page.stopRecording, PageV1.stopRecording.
  destruct supported, (Page.isRecording s) eqn:R,
    (PageV1.isRecording s1) eqn:R1; simpl; rewrite ?R, ?R1;
    repeat split; try discriminate; reflexivity.
Qed.



Lemma stopRecording_effect_witness :
  Page.isListening
    (fst (Page.stopRecording true
            (Page.onstart
               (fst (Page.startRecording true None false 5 (Page.initial 0))))))
  = false
  /\ PageV1.isListening
       (fst (PageV1.stopRecording true
               (PageV1.onstart
                  (fst (PageV1.startRecording true None false
                          PageV1.initial)))))
     = false.
Proof.
  pose proof
    (stopRecording_effect true
       (Page.onstart
          (fst (Page.startRecording true None false 5 (Page.initial 0))))
       (PageV1.onstart
          (fst (PageV1.startRecording true None false PageV1.initial))))
    as [H H1].
  split.
  - exact (proj1 (proj1 (proj2 (proj2 H)) eq_refl)).
  - exact (proj1 (proj1 (proj2 (proj2 H1)) eq_refl)).
Defined.

(** * Summarizing: theorems *)



(** X6. While the button "요약하기" is enabled, a click never gives the
    message that there is nothing to summarize: it calls the model exactly
    once when the model is loaded, and gives the message that the model is
    not loaded otherwise. *)
Theorem enabled_summarize_click
  (summarizerRef : option Model.summarizer) (s : Page.State) :
  Page.summarize_disabled s = false ->
  Page.error (fst (Page.summarizeText summarizerRef s))
  <> Page.nothing_to_summarize
  /\ match summarizerRef with
     | Some _ =>
         List.length (snd (Page.summarizeText summarizerRef s)) = 1%nat
     | None =>
         snd (Page.summarizeText summarizerRef s) = []
         /\ Page.error (fst (Page.summarizeText summarizerRef s))
            = Page.not_loaded
     end.
Proof.
  unfold Page.summarize_disabled, Page.summarizeText; intros H.
  apply orb_false_iff in H as [H _]; rewrite H.
  destruct summarizerRef as [summarizer|]; simpl.
  - destruct (summarizer _); simpl; split; (discriminate || reflexivity).
  - split; [discriminate | split; reflexivity].
Qed.

Lemma enabled_summarize_click_witness :
  snd (Page.summarizeText None (Page.edit (utf16 "발표") (Page.initial 0))) = [].
Proof.
  exact (proj1 (proj2 (enabled_summarize_click None
                         (Page.edit (utf16 "발표") (Page.initial 0)) eq_refl))).
Defined.

(** * Substrings *)

Lemma starts_with_prefix (p s : jsstring) :
  starts_with p s = true <-> exists b, s = p ++ b.
Proof.
  revert s; induction p as [|x p IH]; intros s; simpl.
  - split; [exists s; reflexivity | reflexivity].
  - destruct s as [|y s]; [split; [discriminate | intros [b H]; discriminate]|].
    rewrite andb_true_iff, N.eqb_eq, IH; split.
    + intros [-> [b ->]]; exists b; reflexivity.
    + intros [b [= -> ->]]; split; [reflexivity | exists b; reflexivity].
Qed.

Lemma includes_infix (p s : jsstring) : includes p s = true <-> infix p s.
Proof.
  unfold includes, infix; induction s as [|c s IH]; simpl.
  - destruct (starts_with p []) eqn:E.
    + split; [intros _|reflexivity].
      apply starts_with_prefix in E as [b E]; exists [], b; exact E.
    + split; [discriminate|]; intros (a & b & H).
      destruct a; [|discriminate].
      assert (starts_with p [] = true)
        by (apply starts_with_prefix; exists b; exact H).
      congruence.
  - destruct (starts_with p (c :: s)) eqn:E.
    + split; [intros _|reflexivity].
      apply starts_with_prefix in E as [b E]; exists [], b; exact E.
    + destruct (indexOf p s) eqn:I; simpl.
      * split; [intros _|reflexivity].
        destruct (proj1 IH eq_refl) as (a & b & ->).
        exists (c :: a), b; reflexivity.
      * split; [discriminate|]; intros (a & b & H).
        destruct a as [|x a].
        -- assert (starts_with p (c :: s) = true)
             by (apply starts_with_prefix; exists b; exact H).
           congruence.
        -- injection H as _ H.
           assert (false = true) by (apply IH; exists a, b; exact H).
           discriminate.
Qed.

Lemma infix_cons (w s : jsstring) (c : N) : infix w s -> infix w (c :: s).
Proof. intros (a & b & ->); exists (c :: a), b; reflexivity. Qed.

Lemma infix_nil (s : jsstring) : infix [] s.
Proof. exists [], s; reflexivity. Qed.

(** A piece of a split occurs in the string and holds no separator. *)
Lemma split_go_piece (sep : N -> bool) (insep : bool) (cur s w : jsstring) :
  (insep = true -> cur = []) ->
  In w (split_go sep insep cur s) ->
  (exists p b, w = rev cur ++ p /\ s = p ++ b
               /\ forallb (fun c => negb (sep c)) p = true)
  \/ (infix w s /\ forallb (fun c => negb (sep c)) w = true).
Proof.
  revert insep cur; induction s as [|c s IH]; intros insep cur Hcur; simpl.
  - intros [<- | []]; left; exists [], []; rewrite app_nil_r; auto.
  - destruct (sep c) eqn:E.
    + assert (Hrec : In w (split_go sep true [] s) ->
                 infix w (c :: s) /\ forallb (fun c => negb (sep c)) w = true).
      { intros H.
        destruct (IH true [] (fun _ => eq_refl) H)
          as [(p & b & -> & -> & Hp) | [Hi Hw]].
        - split; [exists [c], b; reflexivity | exact Hp].
        - split; [apply infix_cons, Hi | exact Hw]. }
      destruct insep.
      * rewrite (Hcur eq_refl); intros H; right; exact (Hrec H).
      * intros [<- | H]; [|right; exact (Hrec H)].
        left; exists [], (c :: s); rewrite app_nil_r; auto.
    + intros H.
      destruct (IH false (c :: cur) ltac:(discriminate) H)
        as [(p & b & -> & -> & Hp) | [Hi Hw]].
      * left; exists (c :: p), b; simpl; rewrite <- app_assoc, E; auto.
      * right; split; [apply infix_cons, Hi | exact Hw].
Qed.

Lemma split_runs_piece (sep : N -> bool) (s w : jsstring) :
  In w (split_runs sep s) ->
  infix w s /\ forallb (fun c => negb (sep c)) w = true.
Proof.
  intros H.
  destruct (split_go_piece sep false [] s w ltac:(discriminate) H)
    as [(p & b & -> & -> & Hp) | H']; [|exact H'].
  split; [exists [], b; reflexivity | exact Hp].
Qed.

(** A string without white space that occurs in a blanked string occurs in
    the string: where a character was replaced, a space stands. *)
Lemma blank_others_infix (w s : jsstring) :
  forallb (fun c => negb (is_space c)) w = true ->
  infix w (blank_others s) -> infix w s.
Proof.
  unfold blank_others; intros Hw (a & b & H).
  apply map_eq_app in H as (a' & r & -> & Ha & H).
  apply map_eq_app in H as (w' & b' & -> & Hw' & Hb).
  exists a', b'; do 2 f_equal.
  subst w; clear -Hw; induction w' as [|c w' IH]; [reflexivity|].
  simpl in *; apply andb_true_iff in Hw as [Hc Hw].
  rewrite (IH Hw) at 1; f_equal.
  destruct (keeps c); [reflexivity | discriminate Hc].
Qed.

Arguments starts_with : simpl never.

Lemma marker_not_at_space (c : N) (s : jsstring) :
  is_space c = true -> starts_with provisional (c :: s) = false.
Proof.
  intros E; destruct (starts_with provisional (c :: s)) eqn:H; [|reflexivity].
  apply starts_with_prefix in H as [b H]; injection H as -> _.
  discriminate E.
Qed.

(** What [strip_provisional] leaves after a removal starts with white
    space. *)
Lemma strip_go_dropping (tag : nat) (dropping : bool) (s w b : jsstring) :
  tag <> O \/ dropping = true ->
  forallb (fun c => negb (is_space c)) w = true ->
  strip_go tag dropping s = w ++ b -> w = [].
Proof.
  revert tag dropping; induction s as [|c s IH]; intros tag dropping Hst Hw.
  - simpl; destruct w; [reflexivity | discriminate].
  - simpl; destruct tag as [|k].
    + destruct Hst as [Hst | ->]; [congruence|]; simpl.
      destruct (is_space c) eqn:E; simpl.
      * rewrite (marker_not_at_space c s E).
        destruct w as [|x w]; [reflexivity|].
        intros [= <- _]; simpl in Hw; rewrite E in Hw; discriminate Hw.
      * apply IH; auto.
    + apply IH; auto.
Qed.

Lemma strip_go_prefix (s w b : jsstring) :
  forallb (fun c => negb (is_space c)) w = true ->
  strip_go 0 false s = w ++ b -> exists b', s = w ++ b'.
Proof.
  revert w b; induction s as [|c s IH]; intros w b Hw; simpl.
  - destruct w; [exists []; reflexivity | discriminate].
  - destruct (starts_with provisional (c :: s)).
    + intros H; apply strip_go_dropping in H; auto.
      subst w; exists (c :: s); reflexivity.
    + destruct w as [|x w]; [exists (c :: s); reflexivity|].
      intros [= <- H]; simpl in Hw; apply andb_true_iff in Hw as [_ Hw].
      destruct (IH _ _ Hw H) as [b' ->]; exists b'; reflexivity.
Qed.

Lemma strip_go_infix (tag : nat) (dropping : bool) (s w : jsstring) :
  forallb (fun c => negb (is_space c)) w = true ->
  infix w (strip_go tag dropping s) -> infix w s.
Proof.
  intros Hw; revert tag dropping; induction s as [|c s IH];
    intros tag dropping; simpl.
  - auto.
  - assert (Hemit : infix w (c :: strip_go 0 false s) -> infix w (c :: s)).
    { intros ([|x a] & b & H).
      - destruct w as [|y w]; [apply infix_nil|].
        simpl in H; injection H as <- H.
        simpl in Hw; apply andb_true_iff in Hw as [_ Hw'].
        destruct (strip_go_prefix _ _ _ Hw' H) as [b' ->].
        exists [], b'; reflexivity.
      - injection H as _ H; apply infix_cons, (IH 0%nat false).
        exists a, b; exact H. }
    destruct tag as [|k]; [|intros H; apply infix_cons, (IH _ _ H)].
    destruct (dropping && negb (is_space c));
      [intros H; apply infix_cons, (IH _ _ H)|].
    destruct (starts_with provisional (c :: s));
      [intros H; apply infix_cons, (IH _ _ H) | exact Hemit].
Qed.

Lemma words_piece (text w : jsstring) :
  In w (words text) -> nonempty w = true ->
  infix w text /\ forallb (fun c => negb (is_space c)) w = true.
Proof.
  intros Hw Hne.
  assert (H : In w (filter nonempty (words text)))
    by (apply filter_In; auto).
  unfold words, cleanText in H.
  rewrite split_trim in H; unfold split_runs, collapse_spaces in H.
  rewrite split_collapse in H; apply filter_In in H as [H _].
  apply split_runs_piece in H as [Hi Hs]; split; [|exact Hs].
  apply (strip_go_infix 0 false), blank_others_infix; assumption.
Qed.

(** X7. Every keyword occurs in the text it was extracted from, as it
    stands there: [text.includes(keyword)] holds. *)
Theorem keywords_occur_in_text (text w : jsstring) :
  In w (extractKeywords text) -> includes w text = true.
Proof.
  rewrite extractKeywords_firstn; intros H.
  apply In_firstn, sorted_keys in H; destruct H as (S & Hw & _).
  apply includes_infix, (words_piece text w Hw), significant_nonempty, S.
Qed.

Lemma keywords_occur_in_text_witness :
  includes (utf16 "회의") (utf16 "오늘, 회의(2차)는 3시!") = true.
Proof.
  apply (keywords_occur_in_text (utf16 "오늘, 회의(2차)는 3시!") (utf16 "회의")).
  vm_compute; auto.
Defined.

Lemma infix_trans (a b c : jsstring) : infix a b -> infix b c -> infix a c.
Proof.
  intros (x & y & ->) (x' & y' & ->); exists (x' ++ x), (y ++ y').
  rewrite <- !app_assoc; reflexivity.
Qed.

Lemma trim_infix (s : jsstring) : infix (trim s) s.
Proof.
  destruct (trimStart_decompose s) as (pre & E & _).
  destruct (trimStart_decompose (rev (trimStart s))) as (pre' & E' & _).
  apply (f_equal (@rev N)) in E'; rewrite rev_involutive, rev_app_distr in E'.
  exists pre, (rev pre'); unfold trim; rewrite <- E'; exact E.
Qed.

Lemma select_sentence (keywords sentences : list jsstring) (x : jsstring) :
  In x (Summary.select keywords sentences) ->
  exists s, In s sentences /\ x = trim s.
Proof.
  unfold Summary.select; intros H.
  apply in_map_iff in H as (e & <- & He); apply In_firstn in He.
  apply (Permutation_in _ (Array_sort_perm _ _)) in He.
  apply in_map_iff in He as (s & <- & Hs); exists s; auto.
Qed.

(** X8. The extractive summary is made of the text's own sentences: each
    sentence that is joined into it occurs in the text as it stands. And it
    is empty only for the empty text. *)
Theorem extractive_summary_from_text (text : jsstring) :
  (forall x,
      In x (Summary.select (extractKeywords text) (Summary.sentences text)) ->
      includes x text = true)
  /\ (Summary.createExtractiveSummary text = [] <-> text = []).
Proof.
  split.
  - intros x H; apply select_sentence in H as (s & Hs & ->).
    apply includes_infix, (infix_trans _ s); [apply trim_infix|].
    unfold Summary.sentences in Hs; apply filter_In in Hs as [Hs _].
    apply (split_runs_piece _ _ _ Hs).
  - unfold Summary.createExtractiveSummary.
    destruct (List.length (Summary.sentences text) <=? 3)%nat eqn:E;
      [tauto|].
    split.
    + intros H; apply app_eq_nil in H as [_ H]; discriminate H.
    + intros ->; discriminate E.
Qed.

Lemma extractive_summary_from_text_witness :
  includes (utf16 "내일 회의 장소는 본관 회의실입니다") minutes = true.
Proof.
  apply (proj1 (extractive_summary_from_text minutes)
           (utf16 "내일 회의 장소는 본관 회의실입니다")).
  vm_compute; left; reflexivity.
Defined.

Lemma firstn_nil_iff {A} (l : list A) : firstn 8 l = [] <-> l = [].
Proof. destruct l; simpl; split; (reflexivity || discriminate). Qed.

(** X9. [extractKeywords] returns nothing exactly when the cleaned text has
    no token of at least 2 code units that is no stop-word, [__proto__]
    apart; so it returns nothing for a text that is empty or all white space.
    When the text has at most 8 distinct such tokens, each of them is
    returned. *)
Theorem keywords_none_or_all (text : jsstring) :
  (extractKeywords text = [] <->
   forall w, In w (words text) -> Spec.significant w = true ->
             w = proto_accessor)
  /\ (forallb is_space text = true -> extractKeywords text = [])
  /\ ((List.length (nodup str_eq_dec (filter Spec.significant (words text)))
       <= 8)%nat ->
      forall w, In w (extractKeywords text) <->
                Spec.significant w = true /\ In w (words text)
                /\ w <> proto_accessor).
Proof.
  assert (Hnone : extractKeywords text = [] <->
                  forall w, In w (words text) -> Spec.significant w = true ->
                            w = proto_accessor).
  { rewrite extractKeywords_firstn, firstn_nil_iff; split.
    - intros H w Hw S; destruct (str_eq_dec w proto_accessor) as [E | E];
        [exact E|].
      assert (Hin : In w (map fst (sorted_entries text)))
        by (apply sorted_keys; auto).
      rewrite H in Hin; destruct Hin.
    - intros H; destruct (map fst (sorted_entries text)) as [|k l] eqn:E;
        [reflexivity|].
      assert (Hk : In k (map fst (sorted_entries text)))
        by (rewrite E; left; reflexivity).
      apply sorted_keys in Hk as (S & Hw & Hp); elim Hp; auto. }
  split; [exact Hnone|split].
  - intros Hblank; apply Hnone; intros w Hw S; exfalso.
    pose proof (significant_nonempty w S) as Hne.
    destruct (words_piece text w Hw Hne) as [(a & b & E) Hs].
    destruct w as [|c w]; [discriminate Hne|].
    rewrite forallb_forall in Hblank.
    assert (Hc : is_space c = true)
      by (apply Hblank; rewrite E; apply in_or_app; right; left; reflexivity).
    simpl in Hs; rewrite Hc in Hs; discriminate Hs.
  - intros Hfew w; rewrite extractKeywords_firstn.
    rewrite firstn_all2; [apply sorted_keys|].
    etransitivity; [|exact Hfew].
    apply NoDup_incl_length; [apply sorted_keys_NoDup|].
    intros k Hk; apply sorted_keys in Hk as (S & Hw & _).
    apply nodup_In, filter_In; auto.
Qed.

Lemma keywords_none_or_all_witness :
  extractKeywords (utf16 "  ") = []
  /\ In (utf16 "일정") (extractKeywords (utf16 "일정, 회의 일정!")).
Proof.
  split.
  - exact (proj1 (proj2 (keywords_none_or_all (utf16 "  "))) eq_refl).
  - assert (Hfew : (List.length
                      (nodup str_eq_dec
                         (filter Spec.significant
                            (words (utf16 "일정, 회의 일정!")))) <= 8)%nat)
      by (vm_compute; repeat constructor).
    refine (proj2 (proj2 (proj2 (keywords_none_or_all (utf16 "일정, 회의 일정!")))
                     Hfew (utf16 "일정")) _).
    vm_compute; repeat split; auto; discriminate.
Defined.

(** * The removal of the marker: theorems *)

Lemma provisional_solid :
  forallb (fun c => negb (is_space c)) provisional = true.
Proof. reflexivity. Qed.

Lemma strip_go_no_start (tag : nat) (dropping : bool) (s : jsstring) :
  starts_with provisional (strip_go tag dropping s) = false.
Proof.
  destruct (starts_with provisional (strip_go tag dropping s)) eqn:H;
    [exfalso | reflexivity].
  apply starts_with_prefix in H as [b H].
  assert (Hdrop : forall tag dropping s b,
             tag <> O \/ dropping = true ->
             strip_go tag dropping s <> provisional ++ b).
  { intros tag' d' s' b' Hst E.
    apply strip_go_dropping in E; [discriminate E | exact Hst |].
    exact provisional_solid. }
  destruct tag as [|k]; [destruct dropping|].
  - exact (Hdrop 0%nat true s b (or_intror eq_refl) H).
  - destruct (strip_go_prefix _ _ _ provisional_solid H) as [b' E].
    destruct s as [|c s]; [discriminate E|].
    assert (Hs : starts_with provisional (c :: s) = true)
      by (apply starts_with_prefix; exists b'; exact E).
    cbn [strip_go andb] in H; rewrite Hs in H.
    refine (Hdrop 3%nat true s b (or_introl _) H); discriminate.
  - refine (Hdrop (S k) dropping s b (or_introl _) H); discriminate.
Qed.

Lemma strip_go_no_marker (tag : nat) (dropping : bool) (s : jsstring) :
  occurrences provisional (strip_go tag dropping s) = 0%nat.
Proof.
  revert tag dropping; induction s as [|c s IH]; intros tag dropping.
  - reflexivity.
  - pose proof (strip_go_no_start tag dropping (c :: s)) as Hstart.
    revert Hstart; cbn [strip_go]; destruct tag as [|k]; [|intros _; apply IH].
    destruct (dropping && negb (is_space c)); [intros _; apply IH|].
    destruct (starts_with provisional (c :: s)); [intros _; apply IH|].
    intros Hstart; cbn [occurrences]; rewrite Hstart, IH; reflexivity.
Qed.

(** X10. What [strip_provisional] returns holds no provisional marker, so a
    second pass changes nothing; and the function returns its argument
    exactly when that holds no marker. *)
Theorem strip_provisional_complete (s : jsstring) :
  occurrences provisional (strip_provisional s) = 0%nat
  /\ strip_provisional (strip_provisional s) = strip_provisional s
  /\ (strip_provisional s = s <-> occurrences provisional s = 0%nat).
Proof.
  assert (H : occurrences provisional (strip_provisional s) = 0%nat)
    by apply strip_go_no_marker.
  split; [exact H|split].
  - apply strip_no_marker, H.
  - split; [intros E; rewrite <- E; exact H | apply strip_no_marker].
Qed.

(** * The text that is summarized: theorems *)

Lemma occurrences_includes (p s : jsstring) :
  occurrences p s = 0%nat <-> includes p s = false.
Proof.
  unfold includes; induction s as [|c s IH]; cbn [occurrences indexOf].
  - destruct (starts_with p []); simpl; split; (discriminate || reflexivity).
  - destruct (starts_with p (c :: s)); simpl; [split; discriminate|].
    destruct (indexOf p s); simpl in *; exact IH.
Qed.

Lemma collapse_go_prefix (s w b : jsstring) :
  forallb (fun c => negb (is_space c)) w = true ->
  collapse_go false s = w ++ b -> exists b', s = w ++ b'.
Proof.
  revert w b; induction s as [|c s IH]; intros w b Hw; simpl.
  - destruct w; [exists []; reflexivity | discriminate].
  - destruct w as [|x w]; [exists (c :: s); reflexivity|].
    simpl in Hw; apply andb_true_iff in Hw as [Hx Hw].
    destruct (is_space c) eqn:E.
    + intros [= <- _]; discriminate Hx.
    + intros [= <- H]; destruct (IH _ _ Hw H) as [b' ->].
      exists b'; reflexivity.
Qed.

(** A string without white space that occurs in a collapsed string occurs in
    the string. *)
Lemma collapse_go_infix (insep : bool) (s w : jsstring) :
  forallb (fun c => negb (is_space c)) w = true ->
  infix w (collapse_go insep s) -> infix w s.
Proof.
  intros Hw; revert insep; induction s as [|c s IH]; intros insep; simpl;
    [auto|].
  destruct (is_space c) eqn:E.
  - destruct insep; [intros H; apply infix_cons, (IH _ H)|].
    intros ([|x a] & b & H).
    + destruct w as [|y w]; [apply infix_nil|].
      simpl in H; injection H as <- _; discriminate Hw.
    + injection H as _ H; apply infix_cons, (IH true); exists a, b; exact H.
  - intros ([|x a] & b & H).
    + destruct w as [|y w]; [apply infix_nil|].
      simpl in H; injection H as <- H.
      simpl in Hw; apply andb_true_iff in Hw as [_ Hw'].
      destruct (collapse_go_prefix _ _ _ Hw' H) as [b' ->].
      exists [], b'; reflexivity.
    + injection H as _ H; apply infix_cons, (IH false); exists a, b; exact H.
Qed.

Lemma preprocess_no_marker (t : jsstring) :
  occurrences provisional (Page.preprocess t) = 0%nat.
Proof.
  apply occurrences_includes.
  destruct (includes provisional (Page.preprocess t)) eqn:H;
    [exfalso | reflexivity].
  apply includes_infix in H.
  assert (H1 : infix provisional (collapse_spaces (strip_provisional t)))
    by (eapply infix_trans; [exact H | apply trim_infix]).
  apply collapse_go_infix in H1; [|exact provisional_solid].
  apply includes_infix in H1.
  pose proof (strip_go_no_marker 0 false t) as H0.
  apply occurrences_includes in H0; unfold strip_provisional in H1.
  congruence.
Qed.

(** An occurrence of [w] in [a ++ b] lies in [a] when [w] and [b] share no
    code unit. *)
Lemma infix_app_disjoint (w a b : jsstring) :
  w <> [] -> (forall c, In c w -> ~ In c b) -> infix w (a ++ b) -> infix w a.
Proof.
  intros Hne Hdis (x & y & H).
  apply app_eq_app in H as [l [[-> H] | [-> H]]].
  - apply app_eq_app in H as [l' [[-> ->] | [-> ->]]].
    + destruct l' as [|c l'];
        [rewrite app_nil_r; exists x, []; rewrite app_nil_r; reflexivity|].
      exfalso; apply (Hdis c); [apply in_or_app; right|]; left; reflexivity.
    + exists x, l'; reflexivity.
  - destruct w as [|c w]; [congruence|].
    exfalso; apply (Hdis c); [left; reflexivity|].
    rewrite H; apply in_or_app; right; left; reflexivity.
Qed.

Lemma firstn_infix (n : nat) (w s : jsstring) :
  infix w (firstn n s) -> infix w s.
Proof.
  intros (a & b & H); exists a, (b ++ skipn n s).
  rewrite <- (firstn_skipn n s) at 1; rewrite H, <- !app_assoc; reflexivity.
Qed.

Lemma clip_no_marker (s : jsstring) :
  includes provisional s = false -> includes provisional (Page.clip s) = false.
Proof.
  intros H; unfold Page.clip.
  destruct (Page.maxLength <? List.length s)%nat; [|exact H].
  destruct (includes provisional (_ ++ _)) eqn:I; [exfalso | reflexivity].
  apply includes_infix, infix_app_disjoint in I.
  - apply firstn_infix, includes_infix in I; congruence.
  - discriminate.
  - intros c Hc Hd; vm_compute in Hc, Hd.
    repeat (destruct Hc as [<- | Hc];
            [repeat (destruct Hd as [Hd | Hd]; [discriminate Hd|]);
             exact Hd|]).
    exact Hc.
Qed.

(** X11. Whatever the transcript, the text that [summarizeText] hands to the
    model holds no provisional marker: the removal takes out every marker,
    and neither the collapsing of white space, nor the trimming, nor the
    cutting to 1000 code units brings one back. *)
Theorem model_input_has_no_marker
  (summarizerRef : option Model.summarizer) (s : Page.State) (input : jsstring) :
  In input (snd (Page.summarizeText summarizerRef s)) ->
  includes provisional input = false.
Proof.
  intros H.
  assert (E : input = Page.clip (Page.preprocess (Page.transcription s))).
  { revert H; unfold Page.summarizeText.
    destruct (is_empty _); [intros []|].
    destruct summarizerRef as [m|]; [|intros []].
    cbv zeta; destruct (m _); simpl; intros [E | []]; symmetry; exact E. }
  subst input; apply clip_no_marker, occurrences_includes, preprocess_no_marker.
Qed.

Lemma model_input_has_no_marker_witness :
  includes provisional
    (Page.clip (Page.preprocess (Page.transcription greeting))) = false.
Proof.
  apply (model_input_has_no_marker (Some (fun _ => Model.Rejected)) greeting).
  vm_compute; left; reflexivity.
Defined.

(** * Keywords of the preprocessed text *)

Lemma wordFreq_filter (ws : list jsstring) :
  wordFreq (filter Spec.significant ws) = wordFreq ws.
Proof.
  unfold wordFreq; generalize (@nil (jsstring * jsvalue)) as o.
  induction ws as [|w ws IH]; intros o; [reflexivity|].
  cbn [filter fold_left].
  change ((2 <=? strlen w) && negb (has stopWords w))
    with (Spec.significant w).
  destruct (Spec.significant w) eqn:S; [|apply IH].
  cbn [fold_left].
  change ((2 <=? strlen w) && negb (has stopWords w))
    with (Spec.significant w).
  rewrite S; apply IH.
Qed.

Lemma keeps_space (c : N) : is_space c = true -> keeps c = true.
Proof. unfold keeps; intros ->; rewrite orb_true_r; reflexivity. Qed.

(** Collapsing the white space before the blanking changes no token. *)
Lemma split_blank_collapse (i j : bool) (cur s : jsstring) :
  (j = true -> i = true) ->
  split_go is_space i cur (blank_others (collapse_go j s))
  = split_go is_space i cur (blank_others s).
Proof.
  revert i j cur; induction s as [|c s IH]; intros i j cur Hij;
    [reflexivity|].
  cbn [collapse_go blank_others map].
  destruct (is_space c) eqn:E.
  - rewrite (keeps_space c E); cbn [split_go]; rewrite E.
    destruct j.
    + rewrite (Hij eq_refl); apply (IH true true); reflexivity.
    + cbn [map]; change (keeps 32) with true; cbv iota; cbn [split_go].
      change (is_space 32) with true; cbv iota.
      destruct i; [|f_equal]; apply (IH true true); reflexivity.
  - cbn [map split_go].
    destruct (is_space (if keeps c then c else 32)); [destruct i; [|f_equal]|];
      apply IH; discriminate.
Qed.

Lemma split_leading (pre t : jsstring) :
  forallb is_space pre = true ->
  filter nonempty (split_runs is_space (pre ++ t))
  = filter nonempty (split_runs is_space t).
Proof.
  unfold split_runs; induction pre as [|c pre IH]; intros H; [reflexivity|].
  simpl in H; apply andb_true_iff in H as [Hc H].
  simpl; rewrite Hc; simpl; rewrite split_after_space; apply IH, H.
Qed.

Lemma trim_decompose (s : jsstring) :
  exists pre post,
    s = pre ++ trim s ++ post
    /\ forallb is_space pre = true /\ forallb is_space post = true.
Proof.
  destruct (trimStart_decompose s) as (pre & E & Hpre).
  destruct (trimStart_decompose (rev (trimStart s))) as (pre' & E' & Hpre').
  apply (f_equal (@rev N)) in E'; rewrite rev_involutive, rev_app_distr in E'.
  exists pre, (rev pre'); unfold trim; rewrite <- E'.
  repeat split; [exact E | exact Hpre | apply forallb_rev, Hpre'].
Qed.

Lemma blank_others_space (sp : jsstring) :
  forallb is_space sp = true -> forallb is_space (blank_others sp) = true.
Proof.
  induction sp as [|c sp IH]; [reflexivity|]; simpl.
  intros H; apply andb_true_iff in H as [Hc H].
  rewrite (keeps_space c Hc), Hc; apply IH, H.
Qed.

Lemma split_blank_trim (s : jsstring) :
  filter nonempty (split_runs is_space (blank_others (trim s)))
  = filter nonempty (split_runs is_space (blank_others s)).
Proof.
  destruct (trim_decompose s) as (pre & post & E & Hpre & Hpost).
  rewrite E at 2; unfold blank_others; rewrite !map_app.
  rewrite split_leading by (apply blank_others_space, Hpre).
  unfold split_runs; rewrite split_trailing by (apply blank_others_space, Hpost).
  reflexivity.
Qed.

Lemma words_preprocess (t : jsstring) :
  filter nonempty (words (Page.preprocess t)) = filter nonempty (words t).
Proof.
  unfold words, cleanText.
  rewrite (strip_no_marker _ (preprocess_no_marker t)).
  rewrite !split_trim; unfold split_runs, collapse_spaces.
  rewrite !split_collapse.
  change (split_go is_space false []) with (split_runs is_space).
  unfold Page.preprocess; rewrite split_blank_trim.
  unfold split_runs, collapse_spaces; rewrite split_blank_collapse;
    [reflexivity | discriminate].
Qed.

(** X12. The keywords of the preprocessed transcript are the keywords of the
    transcript as it stands: the preprocessing of [summarizeText] changes no
    token that [extractKeywords] counts. So the keywords shown after a
    summary are those of the transcript. *)
Theorem keywords_of_preprocessed (t : jsstring) :
  extractKeywords (Page.preprocess t) = extractKeywords t
  /\ forall summarizerRef s,
       Page.transcription s = t ->
       snd (Page.summarizeText summarizerRef s) <> [] ->
       Page.keywords (fst (Page.summarizeText summarizerRef s))
       = extractKeywords t.
Proof.
  assert (H : extractKeywords (Page.preprocess t) = extractKeywords t).
  { unfold extractKeywords.
    rewrite <- (wordFreq_filter (words (Page.preprocess t))).
    rewrite <- (wordFreq_filter (words t)).
    rewrite <- (filter_significant (words (Page.preprocess t))).
    rewrite <- (filter_significant (words t)), words_preprocess.
    reflexivity. }
  split; [exact H|].
  intros summarizerRef s <-; rewrite <- H; unfold Page.summarizeText.
  destruct (is_empty _); [simpl; congruence|].
  destruct summarizerRef as [m|]; [|simpl; congruence].
  cbv zeta; destruct (m _); reflexivity.
Qed.

Lemma keywords_of_preprocessed_witness :
  Page.keywords (fst (Page.summarizeText (Some (fun _ => Model.Rejected)) greeting))
  = extractKeywords (Page.transcription greeting).
Proof.
  apply (proj2 (keywords_of_preprocessed (Page.transcription greeting))
           (Some (fun _ => Model.Rejected)) greeting eq_refl).
  vm_compute; discriminate.
Defined.

(** * Rounding from above, and [Math.round] *)

Section RoundingAbove.
Local Open Scope Q_scope.

Lemma nearest_even_upper (x : Q) :
  inject_Z (Double.nearest_even x) <= x + (1 # 2).
Proof.
  unfold Double.nearest_even.
  pose proof (Qfloor_le x) as Hlo; pose proof (Qlt_floor x) as Hhi.
  rewrite inject_Z_plus in Hhi.
  destruct (Qcompare (x - inject_Z (Qfloor x)) (1 # 2)) eqn:C.
  - apply Qeq_alt in C.
    destruct (Z.even (Qfloor x)); [|rewrite inject_Z_plus];
      change (inject_Z 1) with 1 in *; lra.
  - apply Qlt_alt in C; lra.
  - apply Qgt_alt in C; rewrite inject_Z_plus.
    change (inject_Z 1) with 1 in *; lra.
Qed.

Lemma exponent_lower_small (q : Q) :
  Double.pow2 (-1100) <= q -> Double.pow2 (Double.exponent q) <= q.
Proof.
  intros Hq; unfold Double.exponent.
  set (f := Qfloor (q * Double.pow2 1100)).
  assert (Hf : (1 <= f)%Z).
  { change 1%Z with (Qfloor 1); apply Qfloor_resp_le.
    pose proof (pow2_pos 1100) as HP.
    assert (Hp : Double.pow2 (-1100) * Double.pow2 1100 == 1)
      by (vm_compute; reflexivity).
    revert Hq HP Hp.
    generalize (Double.pow2 1100) as P, (Double.pow2 (-1100)) as p.
    intros P p Hq HP Hp; nra. }
  pose proof (Z.log2_spec f ltac:(lia)) as [Hlog _].
  pose proof (Z.log2_nonneg f) as Hnn.
  assert (Hfq : inject_Z f <= q * Double.pow2 1100) by apply Qfloor_le.
  assert (Hp : inject_Z (2 ^ Z.log2 f) <= inject_Z f)
    by (rewrite <- Zle_Qle; exact Hlog).
  rewrite Zpower_Qpower in Hp by exact Hnn.
  unfold Double.pow2 in *.
  unfold Z.sub; rewrite Qpower_plus by discriminate.
  rewrite Qpower_opp.
  change (inject_Z 2) with 2 in Hp.
  pose proof (pow2_pos 1100) as H1100; unfold Double.pow2 in H1100.
  apply Qle_shift_div_r; [exact H1100|].
  lra.
Qed.

Lemma round_near (q : Q) :
  Double.pow2 (-1100) <= q ->
  q - q * (1 # 9007199254740992) <= Double.round q
  /\ Double.round q <= q + q * (1 # 9007199254740992).
Proof.
  intros Hq; unfold Double.round.
  pose proof (pow2_pos (-1100)) as Hsmall.
  destruct (Qle_bool q 0) eqn:E; [apply Qle_bool_iff in E; lra|].
  set (ulp := Double.pow2 (Double.exponent q - 52)).
  assert (Hpos : 0 < ulp) by apply pow2_pos.
  assert (Hulp : ulp <= q * (1 # 4503599627370496)).
  { unfold ulp, Double.pow2, Z.sub; rewrite Qpower_plus by discriminate.
    pose proof (exponent_lower_small q Hq) as H; unfold Double.pow2 in H.
    change (2 ^ (- (52)))%Q with (1 # 4503599627370496).
    nra. }
  pose proof (nearest_even_lower (q / ulp)) as Hl.
  pose proof (nearest_even_upper (q / ulp)) as Hu.
  assert (Hdiv : q / ulp * ulp == q) by (field; lra).
  set (m := inject_Z (Double.nearest_even (q / ulp))) in *.
  assert (q - (1 # 2) * ulp <= m * ulp) by nra.
  assert (m * ulp <= q + (1 # 2) * ulp) by nra.
  split; lra.
Qed.

Lemma round_zero (q : Q) : q == 0 -> Double.round q = 0.
Proof.
  intros H; unfold Double.round.
  destruct (Qle_bool q 0) eqn:E; [reflexivity|].
  assert (Hle : q <= 0) by lra.
  apply Qle_bool_iff in Hle; congruence.
Qed.

Lemma Math_round_lower (x : Q) (z : Z) :
  inject_Z z - (1 # 2) <= x -> (z <= Page.Math_round x)%Z.
Proof.
  intros H; unfold Page.Math_round.
  rewrite <- (Qfloor_Z z); apply Qfloor_resp_le; lra.
Qed.

Lemma Math_round_upper (x : Q) (z : Z) :
  x < inject_Z z + (1 # 2) -> (Page.Math_round x <= z)%Z.
Proof.
  intros H; unfold Page.Math_round.
  pose proof (Qfloor_le (x + (1 # 2))) as Hf.
  assert (Hlt : inject_Z (Qfloor (x + (1 # 2))) < inject_Z (z + 1))
    by (rewrite inject_Z_plus; change (inject_Z 1) with 1; lra).
  rewrite <- Zlt_Qlt in Hlt; lia.
Qed.

(** The product [n * c] for a constant [c] between 1/4 and 1, rounded: within
    a relative error of [2^-53]. *)
Lemma scaled_length (n : N) (c : Q) :
  (1 # 4) <= c -> c <= 1 ->
  let q := Double.of_N n * c in
  q - q * (1 # 9007199254740992) <= Double.mul (Double.of_N n) c
  /\ Double.mul (Double.of_N n) c <= q + q * (1 # 9007199254740992).
Proof.
  intros Hc Hc' q; unfold Double.mul; fold q.
  assert (Hn : n = 0%N \/ (1 <= n)%N) by lia.
  destruct Hn as [-> | Hn].
  - assert (Hq : q == 0)
      by (unfold q, Double.of_N; change (inject_Z (Z.of_N 0)) with 0; ring).
    rewrite (round_zero q Hq); lra.
  - assert (Hz : 1 <= Double.of_N n).
    { unfold Double.of_N; change 1 with (inject_Z 1); rewrite <- Zle_Qle; lia. }
    assert (Hq : (1 # 4) <= q) by (unfold q; nra).
    apply round_near.
    assert (Double.pow2 (-1100) <= 1 # 4) by (vm_compute; discriminate).
    lra.
Qed.

End RoundingAbove.

(** * The generation options: theorems *)

(** X13. The two lengths that go to the model with the text are consistent
    whatever the text: [max_length] lies between 80 and 300 and [min_length]
    between 30 and 40, so the least length is always below the greatest.
    [max_length] is 80 for a text of up to 160 code units and 300 from 600
    on; [min_length] is 30 up to 100 code units and 40 from 134 on. *)
Theorem generation_lengths (inputLength : N) :
  (80 <= Page.max_length inputLength <= 300)%Z
  /\ (30 <= Page.min_length inputLength <= 40)%Z
  /\ (inputLength <= 160 -> Page.max_length inputLength = 80%Z)
  /\ (600 <= inputLength -> Page.max_length inputLength = 300%Z)
  /\ (inputLength <= 100 -> Page.min_length inputLength = 30%Z)
  /\ (134 <= inputLength -> Page.min_length inputLength = 40%Z).
Proof.
  unfold Page.max_length, Page.min_length; cbv zeta.
  assert (H5 : ((4999 # 10000) <= Double.round (5 # 10)
                /\ Double.round (5 # 10) <= 1 # 2)%Q)
    by (split; vm_compute; discriminate).
  assert (H3 : ((2999 # 10000) <= Double.round (3 # 10)
                /\ Double.round (3 # 10) <= 3 # 10)%Q)
    by (split; vm_compute; discriminate).
  destruct (scaled_length inputLength (Double.round (5 # 10)))
    as [Hlo5 Hhi5]; [lra | lra |].
  destruct (scaled_length inputLength (Double.round (3 # 10)))
    as [Hlo3 Hhi3]; [lra | lra |].
  revert Hlo5 Hhi5 Hlo3 Hhi3; cbv zeta.
  set (x5 := Double.mul (Double.of_N inputLength) (Double.round (5 # 10))).
  set (x3 := Double.mul (Double.of_N inputLength) (Double.round (3 # 10))).
  set (c5 := Double.round (5 # 10)) in *.
  set (c3 := Double.round (3 # 10)) in *.
  set (z := Double.of_N inputLength).
  intros Hlo5 Hhi5 Hlo3 Hhi3.
  assert (Hz : forall k : N, (k <= inputLength)%N -> (inject_Z (Z.of_N k) <= z)%Q)
    by (intros k Hk; unfold z, Double.of_N; rewrite <- Zle_Qle; lia).
  assert (Hz' : forall k : N, (inputLength <= k)%N -> (z <= inject_Z (Z.of_N k))%Q)
    by (intros k Hk; unfold z, Double.of_N; rewrite <- Zle_Qle; lia).
  assert (Hz0 : (0 <= z)%Q) by (apply (Hz 0%N); lia).
  pose proof (Q.le_max_l x5 80) as M1; pose proof (Q.le_max_r x5 80) as M2.
  pose proof (Q.le_min_l (Qmax x5 80) 300) as M3.
  pose proof (Q.le_min_r (Qmax x5 80) 300) as M4.
  pose proof (Q.le_min_l x3 40) as N1; pose proof (Q.le_min_r x3 40) as N2.
  pose proof (Q.le_max_l (Qmin x3 40) 30) as N3.
  pose proof (Q.le_max_r (Qmin x3 40) 30) as N4.
  assert (Max80 : (80 <= Page.Math_round (Qmin (Qmax x5 80) 300))%Z).
  { apply Math_round_lower.
    assert (80 <= Qmin (Qmax x5 80) 300)%Q by (apply Q.min_glb; lra).
    change (inject_Z 80) with 80%Q; lra. }
  assert (Max300 : (Page.Math_round (Qmin (Qmax x5 80) 300) <= 300)%Z)
    by (apply Math_round_upper; change (inject_Z 300) with 300%Q; lra).
  assert (Min30 : (30 <= Page.Math_round (Qmax (Qmin x3 40) 30))%Z)
    by (apply Math_round_lower; change (inject_Z 30) with 30%Q; lra).
  assert (Min40 : (Page.Math_round (Qmax (Qmin x3 40) 30) <= 40)%Z).
  { apply Math_round_upper.
    assert (Qmax (Qmin x3 40) 30 <= 40)%Q by (apply Q.max_lub; lra).
    change (inject_Z 40) with 40%Q; lra. }
  repeat split; try assumption.
  - intros Hn; apply Z.le_antisymm; [|exact Max80].
    apply Math_round_upper; change (inject_Z 80) with 80%Q.
    pose proof (Hz' 160%N Hn) as Hzn; change (inject_Z (Z.of_N 160)) with 160%Q in Hzn.
    assert (Qmax x5 80 < 80 + (1 # 2))%Q by (apply Q.max_lub_lt; nra).
    lra.
  - intros Hn; apply Z.le_antisymm; [exact Max300|].
    apply Math_round_lower; change (inject_Z 300) with 300%Q.
    pose proof (Hz 600%N Hn) as Hzn; change (inject_Z (Z.of_N 600)) with 600%Q in Hzn.
    apply Q.min_glb; [|lra].
    assert ((2998 # 10) <= x5)%Q by nra.
    lra.
  - intros Hn; apply Z.le_antisymm; [|exact Min30].
    apply Math_round_upper; change (inject_Z 30) with 30%Q.
    pose proof (Hz' 100%N Hn) as Hzn; change (inject_Z (Z.of_N 100)) with 100%Q in Hzn.
    apply Q.max_lub_lt; [|lra].
    assert (x3 < 30 + (1 # 2))%Q by nra.
    lra.
  - intros Hn; apply Z.le_antisymm; [exact Min40|].
    apply Math_round_lower; change (inject_Z 40) with 40%Q.
    pose proof (Hz 134%N Hn) as Hzn; change (inject_Z (Z.of_N 134)) with 134%Q in Hzn.
    assert (40 - (1 # 2) <= Qmin x3 40)%Q by (apply Q.min_glb; nra).
    lra.
Qed.

Lemma generation_lengths_witness :
  Page.max_length 120 = 80%Z /\ Page.min_length 150 = 40%Z.
Proof.
  split.
  - apply (proj1 (proj2 (proj2 (generation_lengths 120)))); lia.
  - apply (proj2 (proj2 (proj2 (proj2 (proj2 (generation_lengths 150)))))); lia.
Defined.

(** * The volume level: theorems *)

Lemma sum_bounds (lo hi : N) (dataArray : list N) (acc : N) :
  Forall (fun b => lo <= b <= hi) dataArray ->
  acc + lo * N.of_nat (List.length dataArray) <= fold_left N.add dataArray acc
  /\ fold_left N.add dataArray acc
     <= acc + hi * N.of_nat (List.length dataArray).
Proof.
  intros H; revert acc; induction H as [|b l [Hlo Hhi] _ IH]; intros acc.
  - simpl; lia.
  - cbn [fold_left List.length]; rewrite Nat2N.inj_succ.
    destruct (IH (acc + b)) as [IH1 IH2]; split; nia.
Qed.

(** X14. The level that [monitorVolume] computes from the bytes of the
    analyser lies between the least and the greatest of them, the rounding
    of the division and [Math.round] notwithstanding; so it is at most 255,
    the environment is "quiet" when every byte is below 10 and "very_noisy"
    when every byte is at least 25. *)
Theorem roundedLevel_within (first : N) (others : list N) (lo hi : N) :
  Forall (fun b => lo <= b <= hi) (first :: others) ->
  hi <= 255 ->
  N.of_nat (List.length others) < 4294967295 ->
  lo <= Page.roundedLevel first others <= hi
  /\ (hi < 10 ->
      Page.environment_of (Page.roundedLevel first others) = Page.quiet)
  /\ (25 <= lo ->
      Page.environment_of (Page.roundedLevel first others) = Page.very_noisy).
Proof.
  intros Hall Hhi Hlen.
  assert (Hin : lo <= Page.roundedLevel first others <= hi).
  { unfold Page.roundedLevel, Page.sum, Double.div, Double.of_N; cbv zeta.
    destruct (sum_bounds lo hi (first :: others) 0 Hall) as [Hs1 Hs2].
    set (total := fold_left N.add (first :: others) 0) in *.
    set (len := N.of_nat (List.length (first :: others))) in *.
    assert (Hlen' : 1 <= len < 4294967296)
      by (unfold len; cbn [List.length]; rewrite Nat2N.inj_succ; lia).
    assert (Hlh : lo <= hi) by (inversion Hall; lia).
    set (q := (inject_Z (Z.of_N total) / inject_Z (Z.of_N len))%Q).
    assert (Hl1 : (1 <= inject_Z (Z.of_N len))%Q)
      by (change 1%Q with (inject_Z 1); rewrite <- Zle_Qle; lia).
    assert (Hl2 : (inject_Z (Z.of_N len) <= 4294967296)%Q)
      by (change 4294967296%Q with (inject_Z 4294967296);
          rewrite <- Zle_Qle; lia).
    assert (Hq1 : (inject_Z (Z.of_N lo) <= q)%Q).
    { unfold q; apply Qle_shift_div_l; [lra|].
      rewrite <- inject_Z_mult, <- Zle_Qle; lia. }
    assert (Hq2 : (q <= inject_Z (Z.of_N hi))%Q).
    { unfold q; apply Qle_shift_div_r; [lra|].
      rewrite <- inject_Z_mult, <- Zle_Qle; lia. }
    assert (Hhi' : (inject_Z (Z.of_N hi) <= 255)%Q)
      by (change 255%Q with (inject_Z 255); rewrite <- Zle_Qle; lia).
    assert (Hlo0 : (0 <= inject_Z (Z.of_N lo))%Q)
      by (change 0%Q with (inject_Z 0); rewrite <- Zle_Qle; lia).
    assert (Htot : total = 0 \/ 1 <= total) by lia.
    destruct Htot as [Ht | Ht].
    - assert (Hq0 : (q == 0)%Q)
        by (unfold q; rewrite Ht; change (inject_Z (Z.of_N 0)) with 0%Q;
            field; lra).
      rewrite (round_zero q Hq0); change (Page.Math_round 0) with 0%Z.
      simpl; nia.
    - assert (Hqs : (Double.pow2 (-1100) <= q)%Q).
      { assert (Hsmall : (Double.pow2 (-1100) <= 1 # 4294967296)%Q)
          by (vm_compute; discriminate).
        assert (Ht' : (1 <= inject_Z (Z.of_N total))%Q)
          by (change 1%Q with (inject_Z 1); rewrite <- Zle_Qle; lia).
        assert (((1 # 4294967296) <= q)%Q);
          [unfold q; apply Qle_shift_div_l; [lra | nra] | lra]. }
      destruct (round_near q Hqs) as [Hr1 Hr2].
      assert (Hup : (Page.Math_round (Double.round q) <= Z.of_N hi)%Z)
        by (apply Math_round_upper; nra).
      assert (Hlow : (Z.of_N lo <= Page.Math_round (Double.round q))%Z)
        by (apply Math_round_lower; nra).
      lia. }
  split; [exact Hin|]; unfold Page.environment_of; split; intros H.
  - assert (E : (Page.roundedLevel first others <? 10) = true)
      by (apply N.ltb_lt; lia).
    rewrite E; reflexivity.
  - assert (E1 : (Page.roundedLevel first others <? 10) = false)
      by (apply N.ltb_ge; lia).
    assert (E2 : (Page.roundedLevel first others <? 25) = false)
      by (apply N.ltb_ge; lia).
    rewrite E1, E2; reflexivity.
Qed.

Lemma roundedLevel_within_witness :
  3 <= Page.roundedLevel 3 [9; 4] <= 9
  /\ Page.environment_of (Page.roundedLevel 3 [9; 4]) = Page.quiet.
Proof.
  assert (H : Forall (fun b => 3 <= b <= 9) [3; 9; 4])
    by (repeat constructor; lia).
  assert (Hhi : 9 <= 255) by lia.
  assert (Hlen : N.of_nat (List.length [9; 4]) < 4294967295)
    by (vm_compute; reflexivity).
  destruct (roundedLevel_within 3 [9; 4] 3 9 H Hhi Hlen) as (Hin & Hq & _).
  split; [exact Hin | apply Hq; lia].
Defined.

(** * The activity monitor and the loading of the model: theorems *)

(** X15. The activity check changes nothing but the error message, and does
    nothing at all until more than 30 seconds have passed since the last
    activity. It stops the recognition only after more than 60 seconds and
    with fewer than 3 reconnect attempts counted, and whenever it does, the
    message of inactivity is the one shown. *)
Theorem activityCheck_effect (now : Z) (s : Page.State) :
  ((now - Page.lastActivity s <= 30000)%Z ->
   Page.activityCheck now s = (s, []))
  /\ ((30000 < now - Page.lastActivity s)%Z ->
      fst (Page.activityCheck now s) = Page.setError Page.inactive s)
  /\ (snd (Page.activityCheck now s) = [Page.Stop] <->
      (60000 < now - Page.lastActivity s)%Z /\ Page.reconnectAttempts s < 3)
  /\ (snd (Page.activityCheck now s) <> [] ->
      Page.error (fst (Page.activityCheck now s)) = Page.inactive)
  /\ (List.length (snd (Page.activityCheck now s)) <= 1)%nat.
Proof.
  unfold Page.activityCheck; cbv zeta.
  destruct (Z.ltb_spec 30000 (now - Page.lastActivity s)) as [H30 | H30];
    destruct (Z.ltb_spec 60000 (now - Page.lastActivity s)) as [H60 | H60];
    destruct (N.ltb_spec (Page.reconnectAttempts s) 3) as [H3 | H3];
    cbn [andb fst snd]; repeat split; intros; try lia;
    try discriminate; try reflexivity; try (simpl; lia); try tauto;
    try congruence.
  all: try (destruct H; lia).
Qed.

Lemma activityCheck_effect_witness :
  Page.activityCheck 20000 (Page.initial 0) = (Page.initial 0, []).
Proof.
  apply (proj1 (activityCheck_effect 20000 (Page.initial 0))).
  simpl; lia.
Defined.

(** X16. The loading of the model always ends with the loading flag off, and
    touches nothing but that flag and the error message. The model is the
    first one when that loads, the second when only that loads; when neither
    loads, the reference stays as it was and the message of the failed
    loading is set. Once a model is there, a click on "요약하기" with a
    transcript that is not blank calls that model, exactly once. *)
Theorem initSummarizer_outcome
  (first second summarizerRef : option Model.summarizer) (s : Page.State) :
  Page.isLoading (fst (Page.initSummarizer first second summarizerRef s))
  = false
  /\ Page.setIsLoading false
       (Page.setError (Page.error s)
          (fst (Page.initSummarizer first second summarizerRef s)))
     = Page.setIsLoading false s
  /\ snd (Page.initSummarizer first second summarizerRef s)
     = match first, second with
       | Some summarizer, _ => Some summarizer
       | None, Some fallbackSummarizer => Some fallbackSummarizer
       | None, None => summarizerRef
       end
  /\ (Page.error (fst (Page.initSummarizer first second summarizerRef s))
      = match first, second with
        | None, None => Page.load_failed
        | _, _ => Page.error s
        end)
  /\ forall summarizer,
       snd (Page.initSummarizer first second summarizerRef s)
       = Some summarizer ->
       is_empty (trim (Page.transcription s)) = false ->
       snd (Page.summarizeText
              (snd (Page.initSummarizer first second summarizerRef s))
              (fst (Page.initSummarizer first second summarizerRef s)))
       = [Page.clip (Page.preprocess (Page.transcription s))].
Proof.
  unfold Page.initSummarizer; cbv zeta.
  assert (Hcall : forall m s',
             Page.transcription s' = Page.transcription s ->
             is_empty (trim (Page.transcription s)) = false ->
             snd (Page.summarizeText (Some m) s')
             = [Page.clip (Page.preprocess (Page.transcription s))]).
  { intros m s' E Hne; unfold Page.summarizeText; rewrite E, Hne.
    cbv zeta; cbn [Page.transcription Page.setError Page.setIsLoading
                     Page.setKeywords].
    rewrite E; destruct (m _); reflexivity. }
  destruct first as [m1|], second as [m2|]; cbn [fst snd];
    (split; [reflexivity|]); (split; [destruct s; reflexivity|]);
    (split; [reflexivity|]); (split; [reflexivity|]);
    intros m Hm Hne; rewrite ?Hm; apply Hcall; auto.
Qed.

Lemma initSummarizer_outcome_witness :
  snd (Page.summarizeText
         (snd (Page.initSummarizer None (Some (fun _ => Model.Rejected)) None
                 greeting))
         (fst (Page.initSummarizer None (Some (fun _ => Model.Rejected)) None
                 greeting)))
  = [Page.clip (Page.preprocess (Page.transcription greeting))].
Proof.
  apply (proj2 (proj2 (proj2 (proj2
           (initSummarizer_outcome None (Some (fun _ => Model.Rejected)) None
              greeting)))) (fun _ => Model.Rejected));
    reflexivity.
Defined.

(** * The buttons: theorems *)

(** X17. The guards of the handlers agree with the [disabled] attributes of
    the buttons: of "녹음 시작" and "녹음 중지" exactly one is enabled, and
    a click that reaches the handler of the disabled one changes nothing and
    calls nothing. The button "요약하기" is also disabled while a summary or
    the model is loading, which the handler does not test. In both
    revisions. *)
Theorem buttons_guarded
  (microphone : option (N * list N)) (throws : bool) (now : Z)
  (s : Page.State) (s1 : PageV1.State) :
  Page.start_disabled s = negb (Page.stop_disabled s)
  /\ (Page.start_disabled s = true ->
      Page.startRecording true microphone throws now s = (s, []))
  /\ (Page.stop_disabled s = true -> Page.stopRecording true s = (s, []))
  /\ (Page.start_disabled s = false ->
      snd (Page.startRecording true microphone throws now s) = [Page.Start])
  /\ (Page.stop_disabled s = false ->
      snd (Page.stopRecording true s) = [Page.Stop])
  /\ (PageV1.isRecording s1 = true ->
      PageV1.startRecording true microphone throws s1 = (s1, []))
  /\ (PageV1.isRecording s1 = false ->
      PageV1.stopRecording true s1 = (s1, []))
  /\ (Page.download_disabled s = true -> Page.summarize_disabled s = true).
Proof.
  unfold Page.start_disabled, Page.stop_disabled, Page.startRecording,
    Page.stopRecording, PageV1.startRecording, PageV1.stopRecording,
    Page.download_disabled, Page.summarize_disabled.
  destruct (Page.isRecording s), (PageV1.isRecording s1), throws;
    cbn [andb negb fst snd]; repeat split; intros; try discriminate;
    try reflexivity.
  all: rewrite H; reflexivity.
Qed.

Lemma buttons_guarded_witness :
  Page.stopRecording true (Page.initial 0) = (Page.initial 0, []).
Proof.
  apply (proj1 (proj2 (proj2
           (buttons_guarded None false 0 (Page.initial 0) PageV1.initial))));
    reflexivity.
Defined.

(** * The downloaded file: theorems *)

Lemma infix_app_l (w a b : jsstring) : infix w a -> infix w (a ++ b).
Proof.
  intros (x & y & ->); exists x, (y ++ b); rewrite <- !app_assoc; reflexivity.
Qed.

Lemma infix_app_r (w a b : jsstring) : infix w b -> infix w (a ++ b).
Proof.
  intros (x & y & ->); exists (a ++ x), y; rewrite <- !app_assoc; reflexivity.
Qed.

Lemma infix_refl (w : jsstring) : infix w w.
Proof. exists [], []; rewrite app_nil_r; reflexivity. Qed.

Lemma join_infix (sep w : jsstring) (l : list jsstring) :
  In w l -> infix w (join sep l).
Proof.
  induction l as [|x l IH]; [intros []|].
  intros [-> | H]; cbn [join]; destruct l as [|y l].
  - apply infix_refl.
  - apply infix_app_l, infix_refl.
  - destruct H.
  - apply infix_app_r, infix_app_r, IH, H.
Qed.

(** X18. The file that [downloadAsText] writes holds the transcript, the
    summary, every keyword and the date, as they stand; and when there is no
    keyword, it is the file that the earlier revision writes for the same
    transcript and summary, which has no section of keywords. *)
Theorem download_content_holds (date : jsstring) (s : Page.State) :
  includes (Page.transcription s) (Page.download_content date s) = true
  /\ includes (Page.summary s) (Page.download_content date s) = true
  /\ includes date (Page.download_content date s) = true
  /\ (forall keyword, In keyword (Page.keywords s) ->
        includes keyword (Page.download_content date s) = true)
  /\ (Page.keywords s = [] ->
      forall s1,
        PageV1.transcription s1 = Page.transcription s ->
        PageV1.summary s1 = Page.summary s ->
        Page.download_content date s = PageV1.download_content date s1).
Proof.
  unfold Page.download_content, PageV1.download_content; cbv zeta.
  repeat split.
  - apply includes_infix.
    do 5 apply infix_app_r; apply infix_app_l, infix_refl.
  - apply includes_infix.
    do 10 apply infix_app_r; apply infix_app_l, infix_refl.
  - apply includes_infix.
    do 15 apply infix_app_r; apply infix_refl.
  - intros keyword H; apply includes_infix.
    do 11 apply infix_app_r; apply infix_app_l.
    destruct (Page.keywords s) as [|k l] eqn:E; [destruct H|].
    cbn [List.length Nat.ltb Nat.leb].
    do 4 apply infix_app_r; apply join_infix, H.
  - intros -> s1 -> ->; reflexivity.
Qed.

Lemma download_content_holds_witness :
  includes (utf16 "일정")
    (Page.download_content (utf16 "2025. 1. 1.")
       (Page.setKeywords [utf16 "회의"; utf16 "일정"] (Page.initial 0)))
  = true.
Proof.
  apply (proj1 (proj2 (proj2 (proj2
           (download_content_holds (utf16 "2025. 1. 1.")
              (Page.setKeywords [utf16 "회의"; utf16 "일정"]
                 (Page.initial 0)))))));
    right; left; reflexivity.
Defined.

(** * The session of app/page.tsx: theorems *)

Lemma runV1_snoc (actions : list SessionV1.action) (a : SessionV1.action) :
  SessionV1.run (actions ++ [a])
  = SessionV1.step a (SessionV1.run actions).
Proof. unfold SessionV1.run; rewrite fold_left_app; reflexivity. Qed.

(** [startRecording] is its two parts run together, in both revisions. *)
Lemma startRecording_parts
  (supported throws : bool) (microphone : option (N * list N)) (now : Z)
  (s : Page.State) (s1 : PageV1.State) :
  Page.startRecording supported microphone throws now s
  = (if snd (Page.startRecording_begins supported now s)
     then Page.startRecording_resumes s microphone throws
            (fst (Page.startRecording_begins supported now s))
     else (s, []))
  /\ PageV1.startRecording supported microphone throws s1
     = (if snd (PageV1.startRecording_begins supported s1)
        then PageV1.startRecording_resumes s1 microphone throws
               (fst (PageV1.startRecording_begins supported s1))
        else (s1, [])).
Proof.
  unfold Page.startRecording, Page.startRecording_begins,
    Page.startRecording_resumes, PageV1.startRecording,
    PageV1.startRecording_begins, PageV1.startRecording_resumes.
  destruct (supported && negb (Page.isRecording s)),
    (supported && negb (PageV1.isRecording s1)); split; reflexivity.
Qed.

(** A click on "녹음 중지" between the two parts of [startRecording]: the
    recognition is stopped before it is started, and is then running in a
    session that is not recording. *)
Example stop_before_start :
  SessionV1.calls
    (SessionV1.run [SessionV1.ClickStart; SessionV1.ClickStop;
                    SessionV1.MicrophoneSettles (Some (0, [])) false])
  = [Page.Stop; Page.Start]
  /\ PageV1.isRecording
       (SessionV1.page
          (SessionV1.run [SessionV1.ClickStart; SessionV1.ClickStop;
                          SessionV1.MicrophoneSettles (Some (0, [])) false]))
     = false.
Proof. split; reflexivity. Qed.

Lemma keptV1_step (actions : list SessionV1.action) (a : SessionV1.action)
  (st : SessionV1.state) :
  keptV1 actions st -> keptV1 (actions ++ [a]) (SessionV1.step a st).
Proof.
  destruct st as [s awaiting calls]; unfold keptV1.
  cbn [SessionV1.page SessionV1.awaiting SessionV1.calls].
  intros (Hl & He & Haw & Hcount).
  rewrite (filter_app SessionV1.is_click_start actions [a]), length_app.
  assert (Hon : forall s',
             PageV1.micLevel s' = 0 ->
             PageV1.environmentStatus s' = PageV1.quiet ->
             PageV1.micLevel s' = 0
             /\ PageV1.environmentStatus s' = PageV1.quiet
             /\ Forall (fun render => PageV1.isRecording render = false)
                       awaiting
             /\ (List.length (filter SessionV1.is_start calls)
                 + List.length awaiting
                 <= List.length (filter SessionV1.is_click_start actions)
                    + List.length (filter SessionV1.is_click_start [a]))%nat)
    by (intros s' Hl' He'; repeat split; auto; lia).
  destruct a;
    cbn [SessionV1.step SessionV1.on SessionV1.calling SessionV1.page
           SessionV1.awaiting SessionV1.calls fst snd];
    try solve [apply Hon; cbn; auto].
  - (* RestartTimer *) cbn; rewrite app_nil_r; apply Hon; auto.
  - (* ClickStart *)
    unfold PageV1.startRecording_begins; cbn [andb].
    destruct (PageV1.isRecording s) eqn:R;
      cbn [negb SessionV1.page SessionV1.awaiting SessionV1.calls filter
             SessionV1.is_click_start List.length];
      repeat split; auto; try lia.
    + apply Forall_app; split; [exact Haw | repeat constructor; exact R].
    + rewrite length_app; simpl; lia.
  - (* MicrophoneSettles *)
    destruct awaiting as [|render rest];
      [cbn [SessionV1.page SessionV1.awaiting SessionV1.calls];
       repeat split; auto; simpl; lia|].
    inversion Haw as [|r l R Hrest]; subst.
    unfold PageV1.startRecording_resumes, PageV1.setupMicrophoneMonitoring,
      PageV1.monitorVolume; rewrite R.
    cbn [List.length] in Hcount.
    destruct microphone as [[first others]|], throws;
      cbn [fst snd SessionV1.page SessionV1.awaiting SessionV1.calls];
      rewrite filter_app, length_app; repeat split; auto; simpl; lia.
  - (* ClickStop *)
    unfold PageV1.stopRecording; cbn [andb].
    destruct (PageV1.isRecording s); cbn [fst snd];
      rewrite filter_app, length_app; repeat split; auto; simpl; lia.
  - (* ClickSummarize *)
    apply Hon; unfold PageV1.summarizeText;
      destruct (is_empty _); try (destruct summarizerRef as [m|]);
      try (cbv zeta; destruct (m _)); auto.
  - (* ModelLoaded *)
    apply Hon; unfold PageV1.initSummarizer; destruct loaded; auto.
Qed.

(** X19. In the earlier revision, as it is wired, no handler of the
    recognition ever calls [start()] or [stop()]: a recognition that ends is
    not started again. In every run, whatever comes between a click on
    "녹음 시작" and the answer of the microphone, there are never more calls
    of [start()], made or still to come, than clicks on "녹음 시작"; and the
    level and the environment status never move. *)
Theorem v1_never_restarts (actions : list SessionV1.action) :
  (List.length (filter SessionV1.is_start
                  (SessionV1.calls (SessionV1.run actions)))
   + List.length (SessionV1.awaiting (SessionV1.run actions))
   <= List.length (filter SessionV1.is_click_start actions))%nat
  /\ PageV1.micLevel (SessionV1.page (SessionV1.run actions)) = 0
  /\ PageV1.environmentStatus (SessionV1.page (SessionV1.run actions))
     = PageV1.quiet
  /\ (forall a st,
         SessionV1.of_recognition a = true ->
         SessionV1.calls (SessionV1.step a st) = SessionV1.calls st
         /\ SessionV1.awaiting (SessionV1.step a st) = SessionV1.awaiting st
         /\ (PageV1.isRecording (SessionV1.page (SessionV1.step a st)) = true ->
             PageV1.isRecording (SessionV1.page st) = true)).
Proof.
  assert (H : keptV1 actions (SessionV1.run actions)).
  { induction actions as [|a actions IH] using rev_ind.
    - unfold keptV1; cbn; repeat split; auto.
    - rewrite runV1_snoc; apply keptV1_step, IH. }
  destruct H as (Hl & He & _ & Hcount).
  repeat split; auto;
    destruct a; try discriminate; cbn; auto using app_nil_r; discriminate.
Qed.

Lemma v1_never_restarts_witness :
  SessionV1.calls
    (SessionV1.step SessionV1.End
       (SessionV1.run [SessionV1.ClickStart;
                       SessionV1.MicrophoneSettles (Some (0, [])) false]))
  = [Page.Start].
Proof.
  apply (proj1 (proj2 (proj2 (proj2
           (v1_never_restarts
              [SessionV1.ClickStart;
               SessionV1.MicrophoneSettles (Some (0, [])) false])))
           SessionV1.End
           (SessionV1.run [SessionV1.ClickStart;
                           SessionV1.MicrophoneSettles (Some (0, [])) false])
           eq_refl)).
Defined.

(** * The error message during recognition *)

Lemma step_of_recognition (t0 : Z) (a : Session.action) (s : Page.State) :
  Session.of_recognition a = true ->
  Page.error (Session.step t0 a s) = Page.error s
  /\ Page.isRecording (Session.step t0 a s) = Page.isRecording s
  /\ Page.summary (Session.step t0 a s) = Page.summary s
  /\ Page.keywords (Session.step t0 a s) = Page.keywords s.
Proof.
  destruct a; try discriminate; intros _; cbn; auto.
Qed.

(** X20. As the page is wired, the results, the ends and the starts of the
    recognition and the callbacks of its timers never touch the error
    message, the recording flag, the summary or the keywords: a message set
    by an error stays on the page while results come in again, and the end
    of the recognition never ends the session. *)
Theorem recognition_keeps_message
  (t0 : Z) (actions : list Session.action) (s : Page.State) :
  forallb Session.of_recognition actions = true ->
  Page.error (fold_left (fun s a => Session.step t0 a s) actions s)
  = Page.error s
  /\ Page.isRecording (fold_left (fun s a => Session.step t0 a s) actions s)
     = Page.isRecording s
  /\ Page.summary (fold_left (fun s a => Session.step t0 a s) actions s)
     = Page.summary s
  /\ Page.keywords (fold_left (fun s a => Session.step t0 a s) actions s)
     = Page.keywords s.
Proof.
  revert s; induction actions as [|a actions IH]; intros s H; [cbn; auto|].
  cbn [forallb] in H; apply andb_true_iff in H as [Ha H].
  cbn [fold_left].
  destruct (IH (Session.step t0 a s) H) as (-> & -> & -> & ->).
  apply step_of_recognition, Ha.
Qed.

Lemma recognition_keeps_message_witness :
  Page.error
    (fold_left (fun s a => Session.step 0 a s)
       [Session.End 7; Session.Started; Session.Result 9 (interim "네")]
       (fst (Page.onerror (Page.initial 0) network_error (fifth 0))))
  = Page.error (fst (Page.onerror (Page.initial 0) network_error (fifth 0))).
Proof.
  apply (proj1 (recognition_keeps_message 0
                  [Session.End 7; Session.Started;
                   Session.Result 9 (interim "네")]
                  (fst (Page.onerror (Page.initial 0) network_error (fifth 0)))
                  eq_refl)).
Defined.

(** * Keywords: what is left to the engine *)

Lemma may_sort_perm (l r : list (jsstring * jsvalue)) :
  may_sort l r -> Permutation r l.
Proof.
  unfold may_sort; destruct (consistent l); [intros ->|auto].
  apply Array_sort_perm.
Qed.

Lemma may_sort_insertion (l : list (jsstring * jsvalue)) :
  may_sort l (Array_sort count_after l).
Proof.
  unfold may_sort; destruct (consistent l);
    [reflexivity | apply Array_sort_perm].
Qed.

(** Without a token that names a property of [Object.prototype], every
    value of the frequency object is a number. *)
Lemma plain_numeric (text : jsstring) :
  Spec.plain (filter Spec.significant (words text)) = true ->
  forallb numeric (Object_entries (wordFreq (words text))) = true.
Proof.
  intros Hplain; apply forallb_forall; intros [k v] He.
  apply (Permutation_in _ (Object_entries_perm _)) in He.
  assert (Hk : In k (map fst (wordFreq (words text))))
    by exact (in_map fst _ _ He).
  apply wordFreq_key in Hk as (S & Hw & _).
  assert (Hin : In k (filter Spec.significant (words text)))
    by (apply filter_In; auto).
  destruct (plain_token _ k Hplain Hin) as [Hinh _].
  rewrite (wordFreq_value _ _ _ He Hinh); reflexivity.
Qed.

(** X21. Where the order of the sort is left to the engine (a token that
    names a property of [Object.prototype] is among the entries, with counts
    that differ), every list that [extractKeywords] may return still has no
    duplicates and as many entries as the list of the stable insertion, at
    most 8; each entry is a token of the cleaned text of at least 2 code
    units that is no stop-word and not [__proto__], and occurs in the text as
    it stands. The list of the stable insertion is one of them, and for a
    text without such a token it is the only one. *)
Theorem keywords_whatever_the_engine (text : jsstring) :
  may_return text (extractKeywords text)
  /\ (forall r, may_return text r ->
        NoDup r
        /\ List.length r = List.length (extractKeywords text)
        /\ (List.length r <= 8)%nat
        /\ forall w, In w r ->
             Spec.significant w = true /\ In w (words text)
             /\ w <> proto_accessor /\ includes w text = true)
  /\ (Spec.plain (filter Spec.significant (words text)) = true ->
      forall r, may_return text r -> r = extractKeywords text).
Proof.
  split; [|split].
  - exists (Array_sort count_after (Object_entries (wordFreq (words text)))).
    split; [apply may_sort_insertion | reflexivity].
  - intros r (sorted & Hs & ->); apply may_sort_perm in Hs.
    assert (Hp : Permutation sorted (wordFreq (words text)))
      by (rewrite Hs; apply Object_entries_perm).
    split; [|split; [|split]].
    + rewrite <- firstn_map; apply NoDup_firstn.
      apply (Permutation_NoDup (Permutation_map fst (Permutation_sym Hp))).
      apply wordFreq_keys.
    + unfold extractKeywords; rewrite !length_map, !length_firstn.
      rewrite (Permutation_length Hs), (Permutation_length (Array_sort_perm _ _)).
      reflexivity.
    + rewrite length_map; apply firstn_le_length.
    + intros w Hw; rewrite <- firstn_map in Hw; apply In_firstn in Hw.
      apply (Permutation_in _ (Permutation_map fst Hp)), wordFreq_key in Hw.
      destruct Hw as (S & Hw & Hproto); repeat split; auto.
      apply includes_infix, (words_piece text w Hw), significant_nonempty, S.
  - intros Hplain r (sorted & Hs & ->); revert Hs; unfold may_sort, consistent.
    rewrite (plain_numeric text Hplain); intros ->; reflexivity.
Qed.

Lemma keywords_whatever_the_engine_witness :
  may_return (utf16 "constructor 일정 일정 회의")
    [utf16 "회의"; utf16 "constructor"; utf16 "일정"]
  /\ includes (utf16 "회의") (utf16 "constructor 일정 일정 회의") = true
  /\ extractKeywords (utf16 "일정, 회의 일정!") = [utf16 "일정"; utf16 "회의"].
Proof.
  assert (Hr : may_return (utf16 "constructor 일정 일정 회의")
                 [utf16 "회의"; utf16 "constructor"; utf16 "일정"]).
  { exists [(utf16 "회의", Count 1); (utf16 "constructor", NotNumeric);
            (utf16 "일정", Count 2)].
    split; [|reflexivity].
    vm_compute; apply (Permutation_cons_append [_; _]). }
  split; [exact Hr|split].
  - destruct (proj1 (proj2 (keywords_whatever_the_engine
                              (utf16 "constructor 일정 일정 회의"))) _ Hr)
      as (_ & _ & _ & H).
    apply (H (utf16 "회의")); left; reflexivity.
  - symmetry.
    apply (proj2 (proj2 (keywords_whatever_the_engine
                           (utf16 "일정, 회의 일정!")))).
    + vm_compute; reflexivity.
    + exists [(utf16 "일정", Count 2); (utf16 "회의", Count 1)].
      split; vm_compute; reflexivity.
Defined.
